(** * sam-translate: the command-line shell around the SAM translator

    A shallow embedding of [bin/sam-translate.py].  The script parses its
    command line, optionally shells out to [aws cloudformation package],
    runs the SAM-to-CloudFormation transformation on a template file,
    writes the result as JSON and optionally shells out to
    [aws cloudformation deploy].

    The script is effectful glue, so the embedding is a small state and
    exception monad over a [World] (file contents, logging configuration,
    emitted log records and a trace of the operations performed).  The
    collaborators that are not part of the script (the cloud CLI, the YAML
    parser, the transformation engine, the platform name) are fields of an
    environment record [Env]; every theorem holds for all of them. *)

From Stdlib Require Import ZArith String Ascii List Bool Lia.
From stdpp Require Import base option list gmap strings pretty.

Set Default Proof Using "Type".
Set Warnings "-register-all".

(** ** Data *)

(** [pathlib.Path], identified with its [str()] form. *)
Record Path := mkPath { path_str : string }.

Global Instance Path_eq_dec : EqDecision Path.
Proof. solve_decision. Defined.

(** A Python [str]: its code points, in order. *)
Abbreviation pystr := (list N).

(** A Python [float]: not-a-number, an infinity, or a finite value, which
    is given by the text [float.__repr__] prints for it. *)
Inductive pyfloat :=
| FNaN
| FInfinity
| FNegInfinity
| FFinite (repr : string).

(** A dictionary key: the kinds [json.dumps] turns into strings, and any
    other hashable value (a date, a tuple). *)
Inductive dkey :=
| KStr (s : pystr)
| KInt (n : Z)
| KFloat (f : pyfloat)
| KBool (b : bool)
| KNone
| KOther.

(** Python values as they come out of [yaml_parse] and [transform] and go
    into [json.dumps]: [None], booleans, integers, floats, strings, lists
    and dictionaries (in insertion order), values of a type [json.dumps]
    does not know (a date, a set, bytes) and references back to a
    container that holds them. *)
Inductive doc :=
| DNull
| DBool (b : bool)
| DInt (n : Z)
| DFloat (f : pyfloat)
| DStr (s : pystr)
| DList (items : list doc)
| DDict (entries : list (dkey * doc))
| DOther
| DBackRef.

(** Exceptions that can travel through the script. *)
Inductive exn :=
| CalledProcessError (returncode : Z)
| InvalidDocumentException (message : string) (causes : list string)
| FileNotFoundError
| PermissionError
| IsADirectoryError
| TypeError
| ValueError
| OSError
| YAMLError
| OtherError (name : string).

(** An element of an argument list handed to [subprocess.check_call]:
    the script mixes strings, [Path] objects and option values that are
    [None] when the flag was not given. *)
Inductive argval :=
| AStr (s : string)
| APath (p : Path)
| ANone.

(** The [argparse] namespace [cli_options]. *)
Record Options := mkOptions {
  command : option string;
  template_file : Path;
  output_template : Path;
  s3_bucket : option string;
  capabilities : option string;
  stack_name : option string;
  verbose : bool
}.

(** Logging levels (only the ones the script and its default
    configuration use). *)
Inductive level := DEBUG | WARNING | ERROR.

Definition level_num (l : level) : Z :=
  match l with DEBUG => 10 | WARNING => 30 | ERROR => 40 end%Z.

(** What a log record carries.  [%s]-formatted arguments stay structured;
    a generator object has no stable textual form (its [repr] shows an
    address), so it is kept as the sequence it would yield. *)
Inductive logmsg :=
| MsgExecuting (command_with_args : list argval)
| MsgSuccessful
| MsgException (returncode : Z)
| MsgText (s : string)
| MsgGenerator (items : list string).

(** The three stages of the orchestration. *)
Inductive Stage := Packaging | Transforming | Deploying.

Global Instance Stage_eq_dec : EqDecision Stage.
Proof. solve_decision. Defined.

(** Operations the script performs, in order.  [EvStage] marks the entry
    into [package], [transform_template] and [deploy]. *)
Inductive event :=
| EvStage (s : Stage)
| EvCheckCall (argv : list argval)
| EvOpen (p : Path)
| EvWrite (p : Path) (text : string)
| EvPrint (s : string) (p : Path).

(** File contents by path string.  A file is identified with the string
    of its path: path strings that differ are taken to name different
    files (no links, no two spellings of one file). *)
Abbreviation FS := (gmap string string).

Record World := mkWorld {
  fs : FS;
  log_level : level;
  log : list (level * logmsg);
  trace : list event
}.

(** Outcome of launching a child process: the executable is not found,
    the launch fails for another operating-system reason, or the child
    runs, leaves the file system as [fs'] and returns [returncode]. *)
Inductive child_result :=
| NotFound
| LaunchFailed
| Exited (returncode : Z) (fs' : FS).

(** Outcome of the transformation engine. *)
Inductive transform_result :=
| TOk (d : doc)
| TInvalid (message : string) (causes : list string)
| TRaise (e : exn).

(** Why the operating system refuses an operation on a file. *)
Inductive os_error :=
| NoSuchFile
| NotPermitted
| IsADirectory
| OtherOSError.

(** How a write that does not succeed fails: at the open, with the file
    untouched, or after the open has emptied the file, when only the
    first [kept] characters of the text have reached it. *)
Inductive write_failure :=
| OpenFailed (why : os_error)
| WriteFailed (why : os_error) (kept : nat).

(** The collaborators outside the script.  [writable p] says that a
    write to [p] goes through; [how_write_fails p text] says what happens
    when it does not. *)
Record Env := mkEnv {
  platform_system : string;
  run_child : list string -> FS -> child_result;
  yaml_parse : string -> option doc;
  transform : doc -> transform_result;
  writable : Path -> bool;
  how_write_fails : Path -> string -> write_failure
}.

(** ** The monad: state, [sys.exit] and exceptions *)

Inductive result (A : Type) :=
| Ret (a : A)
| Exit (code : Z)
| Raise (e : exn).
Arguments Ret {A} a.
Arguments Exit {A} code.
Arguments Raise {A} e.

Definition M (A : Type) : Type := World -> result A * World.

Definition ret {A} (a : A) : M A := fun w => (Ret a, w).

Definition bind {A B} (c : M A) (k : A -> M B) : M B :=
  fun w =>
    match c w with
    | (Ret a, w') => k a w'
    | (Exit n, w') => (Exit n, w')
    | (Raise e, w') => (Raise e, w')
    end.

Global Instance M_ret : MRet M := @ret.
Global Instance M_bind : MBind M := fun A B k c => bind c k.

(** A primitive given by its action on the world. *)
Definition prim {A} (f : World -> result A * World) : M A := f.

Definition raise {A} (e : exn) : M A := fun w => (Raise e, w).

(** [sys.exit(code)] *)
Definition sys_exit {A} (code : Z) : M A := fun w => (Exit code, w).

(** [try: body except <class> as e: handler]; [handler e] is [None] when
    the exception is not of the caught class.  [SystemExit] passes. *)
Definition try_except {A} (body : M A) (handler : exn -> option (M A)) : M A :=
  fun w =>
    match body w with
    | (Raise e, w') =>
        match handler e with
        | Some h => h w'
        | None => (Raise e, w')
        end
    | other => other
    end.

Definition emit (ev : event) : M unit :=
  fun w => (Ret tt, mkWorld (fs w) (log_level w) (log w) (trace w ++ [ev])).

(** [logging.basicConfig(level=...)] *)
Definition basicConfig (l : level) : M unit :=
  fun w => (Ret tt, mkWorld (fs w) l (log w) (trace w)).

(** [LOG.<level>(msg)]: recorded when the level is enabled. *)
Definition LOG (l : level) (m : logmsg) : M unit :=
  fun w =>
    if (level_num (log_level w) <=? level_num l)%Z
    then (Ret tt, mkWorld (fs w) (log_level w) (log w ++ [(l, m)]) (trace w))
    else (Ret tt, w).

(** The exit status the parent process sees: 0 when the script runs to
    its end, the low eight bits of the [SystemExit] code after
    [sys.exit], 1 after an uncaught exception. *)
Definition exit_code {A} (r : result A) : Z :=
  match r with
  | Ret _ => 0
  | Exit n => n mod 256
  | Raise _ => 1
  end%Z.

(** ** Strings *)

(** [str.lower()] on ASCII letters. *)
Definition lower_ascii (c : ascii) : ascii :=
  let n := nat_of_ascii c in
  if (65 <=? n)%nat && (n <=? 90)%nat then ascii_of_nat (n + 32) else c.

Fixpoint lower (s : string) : string :=
  match s with
  | EmptyString => EmptyString
  | String c s' => String (lower_ascii c) (lower s')
  end.

(** ** [json.dumps(obj, indent=...)]

    The pure-Python encoder of the [json] module with its defaults
    ([ensure_ascii=True], [allow_nan=True], [check_circular=True],
    [skipkeys=False], separators [","] and [": "] when an indent is
    given), as in CPython 3.11.  It returns the text, or raises
    [TypeError] on a value or a key it cannot serialise and [ValueError]
    on a circular reference or on an integer of more decimal digits than
    the interpreter converts to text.  What the interpreter runs out of
    on a large document (memory, the depth of its stack) is not
    modelled. *)

Definition hex_digit (n : nat) : ascii :=
  match n with
  | 0 => "0" | 1 => "1" | 2 => "2" | 3 => "3" | 4 => "4"
  | 5 => "5" | 6 => "6" | 7 => "7" | 8 => "8" | 9 => "9"
  | 10 => "a" | 11 => "b" | 12 => "c" | 13 => "d" | 14 => "e"
  | _ => "f"
  end%char.

(** ['\\u{0:04x}'.format(n)] *)
Definition escape_u (n : N) : string :=
  let d k := hex_digit (N.to_nat ((n / k) mod 16)) in
  "\u" +:+ String (d 4096%N) (String (d 256%N) (String (d 16%N) (String (d 1%N) EmptyString))).

(** One code point under [ESCAPE_ASCII]: backslash and the double quote
    are escaped, so is everything outside [' '..'~']; a code point above
    the basic plane becomes a surrogate pair. *)
Definition escape_char (n : N) : string :=
  if (n =? 92)%N then "\\"
  else if (n =? 34)%N then String "\" (String (ascii_of_nat 34) EmptyString)
  else if (n =? 8)%N then "\b"
  else if (n =? 12)%N then "\f"
  else if (n =? 10)%N then "\n"
  else if (n =? 13)%N then "\r"
  else if (n =? 9)%N then "\t"
  else if (32 <=? n)%N && (n <=? 126)%N then String (ascii_of_N n) EmptyString
  else if (n <? 65536)%N then escape_u n
  else
    let v := (n - 65536)%N in
    let s1 := N.lor 55296 (N.land (N.shiftr v 10) 1023) in
    let s2 := N.lor 56320 (N.land v 1023) in
    escape_u s1 +:+ escape_u s2.

Fixpoint escape_body (s : pystr) : string :=
  match s with
  | [] => EmptyString
  | c :: s' => escape_char c +:+ escape_body s'
  end.

Definition quote : string := String (ascii_of_nat 34) EmptyString.
Definition newline : string := String (ascii_of_nat 10) EmptyString.

(** [py_encode_basestring_ascii] *)
Definition encode_basestring_ascii (s : pystr) : string :=
  quote +:+ escape_body s +:+ quote.

(** The code points of a text of one-byte characters. *)
Fixpoint ustr (s : string) : pystr :=
  match s with
  | EmptyString => []
  | String c s' => N_of_ascii c :: ustr s'
  end.

(** [floatstr] *)
Definition floatstr (f : pyfloat) : string :=
  match f with
  | FNaN => "NaN"
  | FInfinity => "Infinity"
  | FNegInfinity => "-Infinity"
  | FFinite repr => repr
  end.

(** Why [json.dumps] raises. *)
Inductive dump_error :=
| NotSerializable
| CircularReference
| IntegerTooLong.

Definition dump_exn (e : dump_error) : exn :=
  match e with
  | NotSerializable => TypeError
  | CircularReference => ValueError
  | IntegerTooLong => ValueError
  end.

Inductive dump_result :=
| Text (text : string)
| Fails (e : dump_error).

(** [sys.int_info.default_max_str_digits] *)
Definition max_str_digits : nat := 4300.

(** [int.__repr__]: the decimal text of an integer, refused for an
    integer of more than [max_str_digits] digits. *)
Definition int_repr (n : Z) : dump_result :=
  if (10 ^ Z.of_nat max_str_digits <=? Z.abs n)%Z
  then Fails IntegerTooLong
  else Text (pretty n).

(** The string a dictionary key is written as, before quoting, or why
    the key is refused. *)
Definition key_string (k : dkey) : pystr + dump_error :=
  match k with
  | KStr s => inl s
  | KFloat f => inl (ustr (floatstr f))
  | KBool true => inl (ustr "true")
  | KBool false => inl (ustr "false")
  | KNone => inl (ustr "null")
  | KInt n =>
      match int_repr n with
      | Text t => inl (ustr t)
      | Fails e => inr e
      end
  | KOther => inr NotSerializable
  end.

(** [s * n] *)
Fixpoint repeat_string (s : string) (n : nat) : string :=
  match n with
  | O => EmptyString
  | S n' => s +:+ repeat_string s n'
  end.

Definition newline_indent (indent : string) (lvl : nat) : string :=
  newline +:+ repeat_string indent lvl.

(** Sequencing of encoder steps: the first failure is the result. *)
Definition and_then (r : dump_result) (k : string -> dump_result) : dump_result :=
  match r with
  | Text t => k t
  | Fails e => Fails e
  end.

(** [_iterencode], [_iterencode_list] and [_iterencode_dict] with
    [_indent = indent], at nesting depth [lvl]. *)
Fixpoint iterencode (indent : string) (lvl : nat) (o : doc) : dump_result :=
  match o with
  | DNull => Text "null"
  | DBool true => Text "true"
  | DBool false => Text "false"
  | DInt n => int_repr n
  | DFloat f => Text (floatstr f)
  | DStr s => Text (encode_basestring_ascii s)
  | DOther => Fails NotSerializable
  | DBackRef => Fails CircularReference
  | DList [] => Text "[]"
  | DList (x :: xs) =>
      let separator := "," +:+ newline_indent indent (S lvl) in
      and_then (iterencode indent (S lvl) x) (fun first =>
      and_then ((fix rest (l : list doc) : dump_result :=
                   match l with
                   | [] => Text EmptyString
                   | y :: l' =>
                       and_then (iterencode indent (S lvl) y) (fun item =>
                       and_then (rest l') (fun more =>
                       Text (separator +:+ item +:+ more)))
                   end) xs) (fun others =>
      Text ("[" +:+ newline_indent indent (S lvl) +:+ first +:+ others
                +:+ newline_indent indent lvl +:+ "]")))
  | DDict [] => Text "{}"
  | DDict ((k, v) :: kvs) =>
      let separator := "," +:+ newline_indent indent (S lvl) in
      let entry (k : dkey) (v : doc) : dump_result :=
        match key_string k with
        | inr e => Fails e
        | inl ks =>
            and_then (iterencode indent (S lvl) v) (fun value =>
            Text (encode_basestring_ascii ks +:+ ": " +:+ value))
        end in
      and_then (entry k v) (fun first =>
      and_then ((fix rest (l : list (dkey * doc)) : dump_result :=
                   match l with
                   | [] => Text EmptyString
                   | (k', v') :: l' =>
                       and_then (entry k' v') (fun item =>
                       and_then (rest l') (fun more =>
                       Text (separator +:+ item +:+ more)))
                   end) kvs) (fun others =>
      Text ("{" +:+ newline_indent indent (S lvl) +:+ first +:+ others
                +:+ newline_indent indent lvl +:+ "}")))
  end.

(** [json.dumps(obj, indent=n)] for an integer [n]: the indent string is
    [n] spaces. *)
Definition json_dumps (indent : nat) (o : doc) : dump_result :=
  iterencode (repeat_string " " indent) 0 o.

(** ** [pathlib.Path] (POSIX flavour)

    [Path(s)] parses [s] into a root and components and [str()] puts them
    back together: runs of slashes collapse, empty and ["."] components
    go, [".."] stays, exactly two leading slashes are kept, and the empty
    path prints as ["."]. *)

Definition slash : ascii := ascii_of_nat 47.

(** [s.split('/')] *)
Fixpoint split_slash (s : string) : list string :=
  match s with
  | EmptyString => [EmptyString]
  | String c s' =>
      if Ascii.eqb c slash then EmptyString :: split_slash s'
      else match split_slash s' with
           | x :: xs => String c x :: xs
           | [] => [String c EmptyString]
           end
  end.

(** ['/'.join(parts)] *)
Fixpoint join_slash (parts : list string) : string :=
  match parts with
  | [] => EmptyString
  | [x] => x
  | x :: xs => x +:+ String slash (join_slash xs)
  end.

(** [s.lstrip('/')] *)
Fixpoint lstrip_slash (s : string) : string :=
  match s with
  | String c s' => if Ascii.eqb c slash then lstrip_slash s' else s
  | EmptyString => EmptyString
  end.

(** [splitroot]: the root is ["//"] for exactly two leading slashes,
    ["/"] for any other positive number, empty otherwise. *)
Definition splitroot (s : string) : string * string :=
  let rel := lstrip_slash s in
  let n := String.length s - String.length rel in
  (match n with
   | 0 => EmptyString
   | 2 => String slash (String slash EmptyString)
   | _ => String slash EmptyString
   end, rel).

Definition keep_component (x : string) : bool :=
  negb (String.eqb x EmptyString) && negb (String.eqb x ".").

(** [str(Path(s))] *)
Definition normalize (s : string) : string :=
  let '(root, rel) := splitroot s in
  let parts := filter (fun x => keep_component x = true) (split_slash rel) in
  let r := root +:+ join_slash parts in
  if String.eqb r EmptyString then "." else r.

(** Shape of a printed path: a root, then clean components joined by
    slashes; the empty path prints as a dot. *)
Fixpoint no_slash (s : string) : bool :=
  match s with
  | EmptyString => true
  | String c s' => negb (Ascii.eqb c slash) && no_slash s'
  end.

Definition clean (x : string) : bool := keep_component x && no_slash x.

Definition is_root (r : string) : Prop :=
  r = EmptyString \/ r = String slash EmptyString
  \/ r = String slash (String slash EmptyString).

Definition render (root : string) (parts : list string) : string :=
  let r := root +:+ join_slash parts in
  if String.eqb r EmptyString then "." else r.

Definition starts_clean (r : string) : bool :=
  match r with
  | String c _ => negb (Ascii.eqb c slash)
  | EmptyString => true
  end.

(** [Path(s)] *)
Definition Path_ (s : string) : Path := mkPath (normalize s).

(** ** The script *)

(** [os.fspath] over an argument list: [None] is not path-like, and
    [subprocess] raises [TypeError] on it before any process exists. *)
Definition fspath (a : argval) : option string :=
  match a with
  | AStr s => Some s
  | APath p => Some (path_str p)
  | ANone => None
  end.

Definition suffix_packaged : string := "._sam_packaged_.yaml".

(** The first [n] characters of [s]. *)
Fixpoint string_take (n : nat) (s : string) : string :=
  match n, s with
  | S n', String c s' => String c (string_take n' s')
  | _, _ => EmptyString
  end.

Section Script.
Context (E : Env).

(** [subprocess.check_call(argv)] *)
Definition check_call (argv : list argval) : M unit :=
  emit (EvCheckCall argv);;
  match mapM (M := option) fspath argv with
  | None => raise TypeError
  | Some strs =>
      prim (fun w =>
        match run_child E strs (fs w) with
        | NotFound => (Raise FileNotFoundError, w)
        | LaunchFailed => (Raise OSError, w)
        | Exited rc fs' =>
            let w' := mkWorld fs' (log_level w) (log w) (trace w) in
            if (rc =? 0)%Z then (Ret tt, w') else (Raise (CalledProcessError rc), w')
        end)
  end.

(** [path.open()] followed by reading the whole file. *)
Definition open_read (p : Path) : M string :=
  emit (EvOpen p);;
  prim (fun w =>
    match fs w !! path_str p with
    | Some text => (Ret text, w)
    | None => (Raise FileNotFoundError, w)
    end).

(** The exception class of an operating-system error. *)
Definition os_exn (why : os_error) : exn :=
  match why with
  | NoSuchFile => FileNotFoundError
  | NotPermitted => PermissionError
  | IsADirectory => IsADirectoryError
  | OtherOSError => OSError
  end.

(** [path.write_text(text, encoding="utf-8")]: the file is opened for
    writing, which empties it, and the text is written.  Either the whole
    text replaces the file, or the open fails and the file is untouched,
    or the write fails after the open and the file is left with the part
    of the text that was written. *)
Definition write_text (p : Path) (text : string) : M unit :=
  fun w =>
    if writable E p
    then (Ret tt, mkWorld (<[path_str p := text]> (fs w)) (log_level w) (log w)
                          (trace w ++ [EvWrite p text]))
    else
      match how_write_fails E p text with
      | OpenFailed why => (Raise (os_exn why), w)
      | WriteFailed why kept =>
          (Raise (os_exn why),
           mkWorld (<[path_str p := string_take kept text]> (fs w)) (log_level w) (log w)
                   (trace w ++ [EvWrite p (string_take kept text)]))
      end.

Definition print (s : string) (p : Path) : M unit := emit (EvPrint s p).

(** ["aws" if platform.system().lower() != "windows" else "aws.cmd"] *)
Definition aws_cmd : string :=
  if negb (String.eqb (lower (platform_system E)) "windows") then "aws" else "aws.cmd".

(** [[aws_cmd, "cloudformation", command, *list(args)]] *)
Definition command_with_args (command : string) (args : list argval) : list argval :=
  AStr aws_cmd :: AStr "cloudformation" :: AStr command :: args.

Definition execute_command (command : string) (args : list argval) : M unit :=
  try_except
    (let command_with_args := command_with_args command args in
     LOG DEBUG (MsgExecuting command_with_args);;
     check_call command_with_args;;
     LOG DEBUG MsgSuccessful)
    (fun e =>
       match e with
       | CalledProcessError returncode =>
           Some (LOG DEBUG (MsgException returncode);; sys_exit returncode)
       | _ => None
       end).

Definition opt_arg (o : option string) : argval :=
  match o with
  | Some s => AStr s
  | None => ANone
  end.

Definition package (cli_options : Options) (input_file_path : Path) : M Path :=
  emit (EvStage Packaging);;
  let template_file := input_file_path in
  let package_output_template_file :=
    Path_ (path_str input_file_path +:+ suffix_packaged) in
  let s3_bucket := s3_bucket cli_options in
  let args :=
    [ AStr "--template-file";
      APath template_file;
      AStr "--output-template-file";
      APath package_output_template_file;
      AStr "--s3-bucket";
      opt_arg s3_bucket ] in
  execute_command "package" args;;
  mret package_output_template_file.

(** [reduce(lambda message, error: message + " " + error.message,
    e.causes, e.message)] *)
Definition error_message (message : string) (causes : list string) : string :=
  fold_left (fun message error => message +:+ " " +:+ error) causes message.

Definition transform_template (input_file_path output_file_path : Path) : M unit :=
  emit (EvStage Transforming);;
  sam_template ←
    (f ← open_read input_file_path;
     match yaml_parse E f with
     | Some d => mret d
     | None => raise YAMLError
     end);
  try_except
    (cloud_formation_template ←
       match transform E sam_template with
       | TOk d => mret d
       | TInvalid message causes => raise (InvalidDocumentException message causes)
       | TRaise e => raise e
       end;
     cloud_formation_template_prettified ←
       match json_dumps 1 cloud_formation_template with
       | Text text => mret text
       | Fails e => raise (dump_exn e)
       end;
     write_text output_file_path cloud_formation_template_prettified;;
     print "Wrote transformed CloudFormation template to: " output_file_path)
    (fun e =>
       match e with
       | InvalidDocumentException message causes =>
           Some (LOG ERROR (MsgText (error_message message causes));;
                 LOG ERROR (MsgGenerator causes))
       | _ => None
       end).

Definition deploy (cli_options : Options) (template_file : Path) : M unit :=
  emit (EvStage Deploying);;
  let capabilities := capabilities cli_options in
  let stack_name := stack_name cli_options in
  let args :=
    [ AStr "--template-file"; APath template_file;
      AStr "--capabilities"; opt_arg capabilities;
      AStr "--stack-name"; opt_arg stack_name ] in
  execute_command "deploy" args.

(** The [if __name__ == "__main__":] block. *)
Definition dispatch (cli_options : Options) : M unit :=
  let input_file_path := Path_ (path_str (template_file cli_options)) in
  let output_file_path := Path_ (path_str (output_template cli_options)) in
  if decide (command cli_options = Some "package") then
    package_output_template_file ← package cli_options input_file_path;
    transform_template package_output_template_file output_file_path
  else if decide (command cli_options = Some "deploy") then
    package_output_template_file ← package cli_options input_file_path;
    transform_template package_output_template_file output_file_path;;
    deploy cli_options output_file_path
  else
    transform_template input_file_path output_file_path.

(** The lines between [parse_args] and the main block.  Without a level
    [basicConfig()] leaves the root logger at its initial [WARNING]. *)
Definition configure_logging (cli_options : Options) : M unit :=
  if verbose cli_options then basicConfig DEBUG else basicConfig WARNING.

Definition script (cli_options : Options) : M unit :=
  configure_logging cli_options;;
  dispatch cli_options.

End Script.

(** ** The command line: [parser.parse_args()]

    The parser the script builds, run by [argparse]'s algorithm (as in
    CPython 3.11): every
    argument is first classified as an option or a positional (exact
    option strings, [--opt=value], unique prefixes of long options), then
    options and the one optional positional are consumed left to right.
    [parse_args] ends the process with status 2 on an error and 0 after
    printing the help. *)

Inductive action :=
| ActHelp
| ActTemplateFile
| ActOutputTemplate
| ActS3Bucket
| ActCapabilities
| ActStackName
| ActVerbose.

Global Instance action_eq_dec : EqDecision action.
Proof. solve_decision. Defined.

(** [parser._option_string_actions], in registration order. *)
Definition option_string_actions : list (string * action) :=
  [ ("-h", ActHelp); ("--help", ActHelp);
    ("--template-file", ActTemplateFile);
    ("--output-template", ActOutputTemplate);
    ("--s3-bucket", ActS3Bucket);
    ("--capabilities", ActCapabilities);
    ("--stack-name", ActStackName);
    ("--verbose", ActVerbose) ]%string.

Fixpoint lookup_option (s : string) (table : list (string * action)) : option action :=
  match table with
  | [] => None
  | (o, a) :: table' => if String.eqb o s then Some a else lookup_option s table'
  end.

(** [nargs]: the help and [store_true] actions take no argument, the
    others exactly one. *)
Definition takes_argument (a : action) : bool :=
  match a with
  | ActHelp | ActVerbose => false
  | _ => true
  end.

(** [s.split('=', 1)] when ['=' in s]. *)
Fixpoint split_equals (s : string) : option (string * string) :=
  match s with
  | EmptyString => None
  | String c s' =>
      if Ascii.eqb c "=" then Some (EmptyString, s')
      else match split_equals s' with
           | Some (l, r) => Some (String c l, r)
           | None => None
           end
  end.

Fixpoint has_space (s : string) : bool :=
  match s with
  | EmptyString => false
  | String c s' => Ascii.eqb c " " || has_space s'
  end.

Definition is_digit (c : ascii) : bool :=
  let n := nat_of_ascii c in (48 <=? n)%nat && (n <=? 57)%nat.

(** The longest run of leading digits and what follows it. *)
Fixpoint span_digits (s : string) : string * string :=
  match s with
  | String c s' =>
      if is_digit c then let '(d, r) := span_digits s' in (String c d, r)
      else (EmptyString, s)
  | EmptyString => (EmptyString, EmptyString)
  end.

(** [$]: the end of the string, or just before a final newline. *)
Definition at_end (s : string) : bool :=
  String.eqb s EmptyString || String.eqb s newline.

(** [_negative_number_matcher]: [^-\d+$|^-\d*\.\d+$] *)
Definition negative_number (s : string) : bool :=
  match s with
  | String c r =>
      if Ascii.eqb c "-" then
        let '(d, r1) := span_digits r in
        (negb (String.eqb d EmptyString) && at_end r1)
        || match r1 with
           | String c1 r2 =>
               if Ascii.eqb c1 "." then
                 let '(d2, r3) := span_digits r2 in
                 negb (String.eqb d2 EmptyString) && at_end r3
               else false
           | EmptyString => false
           end
      else false
  | EmptyString => false
  end.

(** [_get_option_tuples]: the candidates for an argument that is no
    exact option string. *)
Definition get_option_tuples (s : string) : list (action * string * option string) :=
  match s with
  | String c0 (String c1 rest) =>
      if Ascii.eqb c0 "-" && Ascii.eqb c1 "-" then
        let '(option_prefix, explicit_arg) :=
          match split_equals s with
          | Some (l, r) => (l, Some r)
          | None => (s, None)
          end in
        omap (fun '(o, a) =>
                if String.prefix option_prefix o then Some (a, o, explicit_arg) else None)
             option_string_actions
      else if Ascii.eqb c0 "-" then
        let short_option_prefix := String c0 (String c1 EmptyString) in
        let short_explicit_arg := rest in
        omap (fun '(o, a) =>
                if String.eqb o short_option_prefix then Some (a, o, Some short_explicit_arg)
                else if String.prefix s o then Some (a, o, None)
                else None)
             option_string_actions
      else []
  | _ => []
  end.

(** Result of [_parse_optional]. *)
Inductive parsed_optional :=
| PPositional
| POption (a : action) (option_string : string) (explicit_arg : option string)
| PUnknown
| PAmbiguous.

Definition parse_optional (s : string) : parsed_optional :=
  match s with
  | EmptyString => PPositional
  | String c0 tail =>
      if negb (Ascii.eqb c0 "-") then PPositional
      else
        match lookup_option s option_string_actions with
        | Some a => POption a s None
        | None =>
            if String.eqb tail EmptyString then PPositional
            else
              let exact_with_value :=
                match split_equals s with
                | Some (o, v) =>
                    match lookup_option o option_string_actions with
                    | Some a => Some (POption a o (Some v))
                    | None => None
                    end
                | None => None
                end in
              match exact_with_value with
              | Some r => r
              | None =>
                  match get_option_tuples s with
                  | _ :: _ :: _ => PAmbiguous
                  | [(a, o, e)] => POption a o e
                  | [] =>
                      if negative_number s then PPositional
                      else if has_space s then PPositional
                      else PUnknown
                  end
              end
        end
  end.

(** A classified argument before the first ["--"]. *)
Inductive tok :=
| TokA (s : string)
| TokO (a : option action) (option_string : string) (explicit_arg : option string).

(** The classification pass: the arguments before the first ["--"], and
    the strings after it when there is one (all of them positional).
    [None] is the "ambiguous option" error. *)
Fixpoint classify (args : list string) : option (list tok * option (list string)) :=
  match args with
  | [] => Some ([], None)
  | s :: rest =>
      if String.eqb s "--" then Some ([], Some rest)
      else
        match parse_optional s with
        | PAmbiguous => None
        | cls =>
            match classify rest with
            | None => None
            | Some (toks, after) =>
                Some (match cls with
                      | POption a o e => TokO (Some a) o e
                      | PUnknown => TokO None s None
                      | _ => TokA s
                      end :: toks, after)
            end
        end
  end.

Inductive parse_result :=
| Parsed (ns : Options)
| ParseExit (code : Z).

(** The defaults of the namespace. *)
Definition default_options : Options :=
  mkOptions None (Path_ "template.yaml") (Path_ "transformed-template.json")
            None None None false.

(** [setattr(namespace, dest, value)] of the store actions; [type=Path]
    converts the two paths. *)
Definition store (a : action) (v : string) (ns : Options) : Options :=
  match a with
  | ActTemplateFile =>
      mkOptions (command ns) (Path_ v) (output_template ns) (s3_bucket ns)
                (capabilities ns) (stack_name ns) (verbose ns)
  | ActOutputTemplate =>
      mkOptions (command ns) (template_file ns) (Path_ v) (s3_bucket ns)
                (capabilities ns) (stack_name ns) (verbose ns)
  | ActS3Bucket =>
      mkOptions (command ns) (template_file ns) (output_template ns) (Some v)
                (capabilities ns) (stack_name ns) (verbose ns)
  | ActCapabilities =>
      mkOptions (command ns) (template_file ns) (output_template ns) (s3_bucket ns)
                (Some v) (stack_name ns) (verbose ns)
  | ActStackName =>
      mkOptions (command ns) (template_file ns) (output_template ns) (s3_bucket ns)
                (capabilities ns) (Some v) (verbose ns)
  | ActHelp | ActVerbose => ns
  end.

Definition store_true (ns : Options) : Options :=
  mkOptions (command ns) (template_file ns) (output_template ns) (s3_bucket ns)
            (capabilities ns) (stack_name ns) true.

Definition set_command (c : option string) (ns : Options) : Options :=
  mkOptions c (template_file ns) (output_template ns) (s3_bucket ns)
            (capabilities ns) (stack_name ns) (verbose ns).

(** [-h] glued to more characters: each further character must again be
    the short help flag; an empty remainder (from [-h=]) is an ignored
    explicit argument. *)
Fixpoint help_chain (explicit_arg : string) : parse_result :=
  match explicit_arg with
  | EmptyString => ParseExit 2
  | String c rest =>
      if Ascii.eqb c "h" then
        (if String.eqb rest EmptyString then ParseExit 0 else help_chain rest)
      else ParseExit 2
  end.

Definition finish (ns : Options) (extras : bool) : parse_result :=
  if extras then ParseExit 2 else Parsed ns.

(** The consumption loop.  [pending] says that the positional [command]
    has not been matched yet; [extras] that some argument was left over
    (reported as "unrecognized arguments" at the very end).

    One case is not followed: an explicit value that is exactly ["--"]
    (as in [--s3-bucket=--]).  [argparse] removes that string from the
    values of the option and stores an empty list, which a namespace of
    [Options] has no place for; [consume] stores the string.  The
    statements about stored values leave such command lines out. *)
Fixpoint consume (toks : list tok) (after : option (list string))
         (ns : Options) (pending extras : bool) : parse_result :=
  match toks with
  | [] =>
      match after with
      | None => finish ns extras
      | Some strs =>
          if pending then
            match strs with
            | [] => finish ns extras
            | c :: more => finish (set_command (Some c) ns)
                                  (extras || negb (Nat.eqb (length more) 0))
            end
          else ParseExit 2
      end
  | TokA s :: rest =>
      if pending then
        match rest, after with
        | [], Some strs =>
            finish (set_command (Some s) ns) (extras || negb (Nat.eqb (length strs) 0))
        | _, _ => consume rest after (set_command (Some s) ns) false extras
        end
      else consume rest after ns false true
  | TokO None _ _ :: rest => consume rest after ns pending true
  | TokO (Some a) o explicit_arg :: rest =>
      match explicit_arg with
      | Some v =>
          if takes_argument a then consume rest after (store a v ns) pending extras
          else if String.eqb o "-h" then help_chain v
          else ParseExit 2
      | None =>
          if takes_argument a then
            match rest with
            | TokA v :: rest' => consume rest' after (store a v ns) pending extras
            | _ => ParseExit 2
            end
          else
            match a with
            | ActHelp => ParseExit 0
            | _ => consume rest after (store_true ns) pending extras
            end
      end
  end.

(** [parser.parse_args(argv)] *)
Definition parse_args (argv : list string) : parse_result :=
  match classify argv with
  | None => ParseExit 2
  | Some (toks, after) => consume toks after default_options true false
  end.

(** The whole program on an argument vector. *)
Definition main (E : Env) (argv : list string) : M unit :=
  match parse_args argv with
  | Parsed cli_options => script E cli_options
  | ParseExit code => sys_exit code
  end.

(** ** Sample environments and worlds *)

Definition sample_doc : doc :=
  DDict [(KStr (ustr "Resources"),
          DDict [(KStr (ustr "A"), DList [DInt 1; DStr (ustr "x"); DBool true])]);
         (KStr (ustr "E"), DDict [])].

(** The text of a result, when there is one. *)
Definition text_of (r : dump_result) : option string :=
  match r with
  | Text t => Some t
  | Fails _ => None
  end.

(** What [json.dumps(sample_doc, indent=1)] returns. *)
Definition sample_text : string := default EmptyString (text_of (json_dumps 1 sample_doc)).

(** A write that never fails was not asked how it fails. *)
Definition never_asked (p : Path) (text : string) : write_failure := OpenFailed OtherOSError.

Definition sample_options : Options :=
  mkOptions None (mkPath "template.yaml") (mkPath "transformed-template.json")
            None None None false.

Definition sample_world : World :=
  mkWorld {[ "template.yaml" := "Resources: {}" ]} WARNING [] [].

(** A cloud CLI that copies the template to the requested output on
    [package], succeeds on [deploy], and is otherwise not found. *)
Definition sample_child (argv : list string) (files : FS) : child_result :=
  match argv with
  | [_; _; "package"; _; src; _; dst; _; _] =>
      match files !! src with
      | Some text => Exited 0 (<[dst := text]> files)
      | None => Exited 255 files
      end
  | _ :: _ :: "deploy" :: _ => Exited 0 files
  | _ => NotFound
  end%string.

Definition sample_env : Env :=
  mkEnv "Linux" sample_child
        (fun text => if String.eqb text "Resources: {}" then Some sample_doc else None)
        TOk (fun _ => true) never_asked.

Definition failing_child (n : Z) (argv : list string) (files : FS) : child_result :=
  Exited n files.

Definition invalid_env : Env :=
  mkEnv "Windows" (failing_child 2) (fun _ => Some DNull)
        (fun _ => TInvalid "Invalid document." ["first"; "second"]%string)
        (fun _ => true) never_asked.

Definition opts_with (cmd : option string) : Options :=
  mkOptions cmd (mkPath "template.yaml") (mkPath "transformed-template.json")
            (Some "my-bucket"%string) (Some "CAPABILITY_IAM"%string) (Some "stack"%string) true.




(** A world whose template is not YAML. *)
Definition malformed_world : World :=
  mkWorld {[ "template.yaml" := "Resources: [" ]} WARNING [] [].

(** More sample environments: a world without files, a transformation
    that fails for another reason, an output that cannot be written, and
    a validation failure behind a working cloud CLI. *)
Definition empty_world : World := mkWorld ∅ WARNING [] [].

Definition broken_env : Env :=
  mkEnv "Linux" sample_child (fun _ => Some DNull)
        (fun _ => TRaise (OtherError "ClientError")) (fun _ => true) never_asked.

Definition readonly_env : Env :=
  mkEnv "Linux" sample_child (fun _ => Some DNull) TOk (fun _ => false)
        (fun _ _ => OpenFailed NotPermitted).

(** A disk that fills up after ten characters. *)
Definition full_disk_env : Env :=
  mkEnv "Linux" sample_child
        (fun text => if String.eqb text "Resources: {}" then Some sample_doc else None)
        TOk (fun _ => false) (fun _ _ => WriteFailed OtherOSError 10).

(** A transformation that returns a date. *)
Definition dated_env : Env :=
  mkEnv "Linux" sample_child (fun _ => Some DNull)
        (fun _ => TOk (DDict [(KStr (ustr "Version"), DOther)])) (fun _ => true) never_asked.

Definition invalid_packaged_env : Env :=
  mkEnv "Linux" sample_child (fun _ => Some DNull)
        (fun _ => TInvalid "Invalid document." ["first"; "second"]%string)
        (fun _ => true) never_asked.

Definition packaged_files : FS :=
  <["template.yaml._sam_packaged_.yaml" := "Resources: {}"]> (fs sample_world).

(** A machine without the cloud CLI, and a cloud CLI that returns 0
    without producing anything. *)
Definition no_cli_env : Env :=
  mkEnv "Linux" (fun _ _ => NotFound) (fun _ => Some DNull) TOk (fun _ => true) never_asked.

Definition idle_cli_env : Env :=
  mkEnv "Linux" (failing_child 0) (fun _ => Some DNull) TOk (fun _ => true) never_asked.

(** ** Describing worlds and traces *)

(** The records [LOG.debug] adds for [msgs] in world [w]. *)
Definition debug_log (w : World) (msgs : list logmsg) : list (level * logmsg) :=
  if (level_num (log_level w) <=? level_num DEBUG)%Z then map (pair DEBUG) msgs else [].

(** The stages a trace went through. *)
Definition stage_of (ev : event) : option Stage :=
  match ev with
  | EvStage s => Some s
  | _ => None
  end.

Definition stages (tr : list event) : list Stage := omap stage_of tr.

(** The two records [transform_template] logs for a validation error. *)
Definition logged_invalid (message : string) (causes : list string) : list (level * logmsg) :=
  [(ERROR, MsgText (error_message message causes)); (ERROR, MsgGenerator causes)].

(** The paths of the main block. *)
Definition input_path (cli_options : Options) : Path :=
  Path_ (path_str (template_file cli_options)).

Definition output_path (cli_options : Options) : Path :=
  Path_ (path_str (output_template cli_options)).

(** The intermediate path: the string of [p] with the packaging suffix. *)
Definition packaged_path (p : Path) : Path :=
  mkPath (path_str p +:+ suffix_packaged).

(** The argument lists of the two child processes. *)
Definition package_argv (E : Env) (cli_options : Options) : list argval :=
  [ AStr (aws_cmd E); AStr "cloudformation"; AStr "package";
    AStr "--template-file"; APath (input_path cli_options);
    AStr "--output-template-file"; APath (packaged_path (input_path cli_options));
    AStr "--s3-bucket"; opt_arg (s3_bucket cli_options) ].

Definition deploy_argv (E : Env) (cli_options : Options) : list argval :=
  [ AStr (aws_cmd E); AStr "cloudformation"; AStr "deploy";
    AStr "--template-file"; APath (output_path cli_options);
    AStr "--capabilities"; opt_arg (capabilities cli_options);
    AStr "--stack-name"; opt_arg (stack_name cli_options) ].

(** The command line of the packaging child when the bucket is [b]. *)
Definition package_command_line (E : Env) (cli_options : Options) (b : string) : list string :=
  [ aws_cmd E; "cloudformation"; "package";
    "--template-file"; path_str (input_path cli_options);
    "--output-template-file"; path_str (input_path cli_options) +:+ suffix_packaged;
    "--s3-bucket"; b ].

(** An argument selects option [a] when [argparse] reads it as that
    option: the option string itself, [--opt=value], or a unique prefix.
    The option is omitted from an argument vector when no argument
    selects it. *)
Definition selects (a : action) (s : string) : bool :=
  match parse_optional s with
  | POption a' _ _ => bool_decide (a' = a)
  | _ => false
  end.

Definition omitted (a : action) (argv : list string) : Prop :=
  Forall (fun s => selects a s = false) argv.

(** No argument is a positional, and there is no ["--"]. *)
Definition no_positional (argv : list string) : Prop :=
  Forall (fun s => parse_optional s <> PPositional /\ s <> "--") argv.

(** A classified argument list in which option [a] does not occur. *)
Definition untouched (a : action) (toks : list tok) : Prop :=
  Forall (fun t => match t with
                   | TokO (Some a') _ _ => a' <> a
                   | _ => True
                   end) toks.

Definition no_TokA (toks : list tok) : Prop :=
  Forall (fun t => match t with TokA _ => False | _ => True end) toks.

(** The world after the logging configuration. *)
Definition configured (cli_options : Options) (w : World) : World :=
  mkWorld (fs w) (if verbose cli_options then DEBUG else WARNING) (log w) (trace w).

(** The world [transform_template] leaves after a validation error. *)
Definition after_invalid (i : Path) (message : string) (causes : list string)
           (w : World) : World :=
  mkWorld (fs w) (log_level w) (log w ++ logged_invalid message causes)
          (trace w ++ [EvStage Transforming; EvOpen i]).


(** Indentation as the written specification words it: two spaces per
    nesting level. *)
Definition spec_json_dumps (o : doc) : dump_result := json_dumps 2 o.

(** What a trace holds of each kind of operation. *)
Definition write_of (ev : event) : option (Path * string) :=
  match ev with
  | EvWrite p text => Some (p, text)
  | _ => None
  end.

Definition open_of (ev : event) : option Path :=
  match ev with
  | EvOpen p => Some p
  | _ => None
  end.

Definition call_of (ev : event) : option (list argval) :=
  match ev with
  | EvCheckCall argv => Some argv
  | _ => None
  end.

Definition writes (tr : list event) : list (Path * string) := omap write_of tr.
Definition opens (tr : list event) : list Path := omap open_of tr.
Definition calls (tr : list event) : list (list argval) := omap call_of tr.

(** The events of one transform step: its stage entry, the open, and,
    when [written] holds a text, the write and the confirmation. *)
Definition transform_events (i o : Path) (written : option string) : list event :=
  EvStage Transforming :: EvOpen i ::
  match written with
  | Some text =>
      [EvWrite o text; EvPrint "Wrote transformed CloudFormation template to: " o]
  | None => []
  end.

(** The cause messages, each after a space, one after the other. *)
Definition spaced (causes : list string) : string :=
  foldr (fun c acc => " " +:+ c +:+ acc) EmptyString causes.

(** The command line of the deployment child. *)
Definition deploy_command_line (E : Env) (cli_options : Options) (c s : string)
  : list string :=
  [ aws_cmd E; "cloudformation"; "deploy";
    "--template-file"; path_str (output_path cli_options);
    "--capabilities"; c; "--stack-name"; s ].

(** The events of the packaging and of the deployment stage. *)
Definition package_events (E : Env) (cli_options : Options) : list event :=
  [EvStage Packaging; EvCheckCall (package_argv E cli_options)].

Definition deploy_events (E : Env) (cli_options : Options) : list event :=
  [EvStage Deploying; EvCheckCall (deploy_argv E cli_options)].

(** The process calls a sub-command can lead to, in order. *)
Definition planned_calls (E : Env) (cli_options : Options) : list (list argval) :=
  if decide (command cli_options = Some "package") then [package_argv E cli_options]
  else if decide (command cli_options = Some "deploy")
       then [package_argv E cli_options; deploy_argv E cli_options]
       else [].

(** The one file a sub-command makes the script read. *)
Definition planned_input (cli_options : Options) : Path :=
  if decide (command cli_options = Some "package")
  then packaged_path (input_path cli_options)
  else if decide (command cli_options = Some "deploy")
       then packaged_path (input_path cli_options)
       else input_path cli_options.

(** A command line that spells a namespace out: every stored option as
    [--opt=value], the flag when set, the command last. *)
Definition render_store (o : string) (v : option string) : list string :=
  match v with
  | Some x => [o +:+ "=" +:+ x]
  | None => []
  end.

Definition render_options (ns : Options) : list string :=
  [ "--template-file=" +:+ path_str (template_file ns);
    "--output-template=" +:+ path_str (output_template ns) ]
  ++ render_store "--s3-bucket" (s3_bucket ns)
  ++ render_store "--capabilities" (capabilities ns)
  ++ render_store "--stack-name" (stack_name ns)
  ++ (if verbose ns then ["--verbose"] else [])
  ++ match command ns with Some c => [c] | None => [] end.

(** A word that does not start with a dash. *)
Definition plain_word (c : string) : bool :=
  match c with
  | String ch _ => negb (Ascii.eqb ch "-")
  | EmptyString => true
  end.

(** The arguments before the first ["--"]. *)
Fixpoint before_dashes (argv : list string) : list string :=
  match argv with
  | [] => []
  | s :: rest => if String.eqb s "--" then [] else s :: before_dashes rest
  end.

(** An argument that can be part of an accepted command line: not an
    unknown option, not an ambiguous prefix, not the help option. *)
Definition acceptable (s : string) : Prop :=
  match parse_optional s with
  | PUnknown | PAmbiguous | POption ActHelp _ _ => False
  | _ => True
  end.

Definition accepted_tok (t : tok) : Prop :=
  match t with
  | TokO None _ _ | TokO (Some ActHelp) _ _ => False
  | _ => True
  end.

(** Both paths of a namespace are printed forms of paths. *)
Definition paths_normal (ns : Options) : Prop :=
  (exists s, template_file ns = Path_ s) /\ (exists s, output_template ns = Path_ s).

(** What a transform step did to the output file. *)
Inductive write_status :=
| NotWritten
| Wrote (text : string)
| Truncated (partial : string).

(** The events of one transform step, by what it did to the output: a
    whole write is followed by the confirmation, a write that failed
    midway is not. *)
Definition step_events (i o : Path) (st : write_status) : list event :=
  EvStage Transforming :: EvOpen i ::
  match st with
  | NotWritten => []
  | Wrote text =>
      [EvWrite o text; EvPrint "Wrote transformed CloudFormation template to: " o]
  | Truncated partial => [EvWrite o partial]
  end.

(** The records a transform step logs when it reads [i] in the files
    [files]: the two records of the validation error the document in [i]
    runs into, nothing otherwise. *)
Definition invalid_records (E : Env) (i : Path) (files : FS) : list (level * logmsg) :=
  match files !! path_str i with
  | Some text =>
      match yaml_parse E text with
      | Some d =>
          match transform E d with
          | TInvalid message causes => logged_invalid message causes
          | TRaise (InvalidDocumentException message causes) =>
              logged_invalid message causes
          | _ => []
          end
      | None => []
      end
  | None => []
  end.

(** The records of the transform step that follows a packaging call on
    the files [files]: it runs only when the child returned 0, on the
    files the child left. *)
Definition records_after_packaging (E : Env) (cli_options : Options) (files : FS)
  : list (level * logmsg) :=
  match mapM (M := option) fspath (package_argv E cli_options) with
  | Some strs =>
      match run_child E strs files with
      | Exited rc fs1 =>
          if (rc =? 0)%Z
          then invalid_records E (packaged_path (input_path cli_options)) fs1
          else []
      | _ => []
      end
  | None => []
  end.

(** The records of a whole run without [--verbose]. *)
Definition quiet_records (E : Env) (cli_options : Options) (files : FS)
  : list (level * logmsg) :=
  if decide (command cli_options = Some "package")
  then records_after_packaging E cli_options files
  else if decide (command cli_options = Some "deploy")
       then records_after_packaging E cli_options files
       else invalid_records E (input_path cli_options) files.

(** No argument gives an option the explicit value ["--"]. *)
Definition no_dash_value (argv : list string) : Prop :=
  Forall (fun s => match parse_optional s with
                   | POption _ _ (Some v) => v <> "--"
                   | _ => True
                   end) argv.

(** Unfolding the monad operations. *)
Ltac unfold_monad :=
  unfold mbind, M_bind, mret, M_ret, bind, ret, raise, sys_exit, try_except,
         prim, emit, LOG in *.

(** * Properties *)

(** ** Paths *)

Lemma append_nil_l (t : string) : EmptyString +:+ t = t.
Proof. reflexivity. Qed.

Lemma append_cons c (s t : string) : String c s +:+ t = String c (s +:+ t).
Proof. reflexivity. Qed.

Lemma append_nil_r (s : string) : s +:+ EmptyString = s.
Proof. induction s; rewrite ?append_nil_l, ?append_cons; congruence. Qed.

Lemma append_assoc (a b c : string) : (a +:+ b) +:+ c = a +:+ (b +:+ c).
Proof. induction a; rewrite ?append_nil_l, ?append_cons; congruence. Qed.

Lemma no_slash_app a b : no_slash (a +:+ b) = no_slash a && no_slash b.
Proof.
  induction a; rewrite ?append_nil_l, ?append_cons; simpl; [reflexivity|].
  rewrite IHa. apply andb_assoc.
Qed.

Lemma split_slash_no_slash s : no_slash s = true -> split_slash s = [s].
Proof.
  induction s as [|c s IH]; simpl; [reflexivity|].
  intros [Hc Hs]%andb_prop. destruct (Ascii.eqb c slash); [discriminate|].
  rewrite IH by assumption. reflexivity.
Qed.

Lemma split_slash_app a r :
  no_slash a = true ->
  split_slash (a +:+ String slash r) = a :: split_slash r.
Proof.
  induction a as [|c a IH]; rewrite ?append_nil_l, ?append_cons; simpl.
  - intros _. reflexivity.
  - intros [Hc Ha]%andb_prop. destruct (Ascii.eqb c slash); [discriminate|].
    rewrite IH by assumption. reflexivity.
Qed.

Lemma split_slash_parts_no_slash s : Forall (fun x => no_slash x = true) (split_slash s).
Proof.
  induction s as [|c s IH]; simpl.
  - repeat constructor.
  - destruct (Ascii.eqb c slash) eqn:Hc.
    + constructor; [reflexivity | assumption].
    + destruct (split_slash s) as [|x xs]; [repeat constructor; simpl; rewrite Hc; reflexivity|].
      inversion IH; subst. constructor; [|assumption]. simpl. rewrite Hc. assumption.
Qed.

Lemma join_slash_cons a x xs :
  join_slash (a :: x :: xs) = a +:+ String slash (join_slash (x :: xs)).
Proof. reflexivity. Qed.

Lemma join_slash_snoc ps x t :
  join_slash (ps ++ [x +:+ t]) = join_slash (ps ++ [x]) +:+ t.
Proof.
  induction ps as [|a ps IH]; [reflexivity|].
  destruct ps as [|b ps].
  - cbn [app]. rewrite !join_slash_cons. cbn [join_slash].
    rewrite append_assoc, append_cons. reflexivity.
  - cbn [app] in *. rewrite !join_slash_cons. rewrite IH.
    rewrite append_assoc, append_cons. reflexivity.
Qed.

Lemma split_join_snoc ps x t :
  Forall (fun y => no_slash y = true) ps -> no_slash (x +:+ t) = true ->
  split_slash (join_slash (ps ++ [x]) +:+ t) = ps ++ [x +:+ t].
Proof.
  intros Hps Hx. induction Hps as [|a ps Ha Hps IH].
  - apply split_slash_no_slash, Hx.
  - destruct ps as [|b ps].
    + cbn [app] in *. rewrite join_slash_cons. cbn [join_slash].
      rewrite append_assoc, append_cons, split_slash_app by assumption.
      rewrite split_slash_no_slash by assumption. reflexivity.
    + cbn [app] in *. rewrite join_slash_cons.
      rewrite append_assoc, append_cons, split_slash_app by assumption.
      rewrite IH. reflexivity.
Qed.

Lemma lstrip_clean r : starts_clean r = true -> lstrip_slash r = r.
Proof. destruct r as [|c r]; simpl; [reflexivity|]. intros H. destruct (Ascii.eqb c slash); [discriminate|reflexivity]. Qed.

Lemma splitroot_is_root s : is_root (fst (splitroot s)).
Proof.
  unfold splitroot, is_root. simpl.
  destruct (String.length s - String.length (lstrip_slash s)) as [|[|[|n]]]; auto.
Qed.

Lemma splitroot_root root r :
  is_root root -> starts_clean r = true -> splitroot (root +:+ r) = (root, r).
Proof.
  intros Hroot Hr. unfold splitroot.
  destruct Hroot as [-> | [-> | ->]]; rewrite ?append_cons, ?append_nil_l;
    cbn [lstrip_slash]; change (Ascii.eqb slash slash) with true; cbn iota;
    rewrite (lstrip_clean r Hr); cbn [String.length].
  - rewrite Nat.sub_diag. reflexivity.
  - replace (S (String.length r) - String.length r) with 1 by lia. reflexivity.
  - replace (S (S (String.length r)) - String.length r) with 2 by lia. reflexivity.
Qed.

Lemma filter_keep_all (l : list string) :
  Forall (fun x => keep_component x = true) l ->
  filter (fun x => keep_component x = true) l = l.
Proof.
  induction 1 as [|x l Hx Hl IH]; [reflexivity|].
  rewrite filter_cons_True by assumption. rewrite IH. reflexivity.
Qed.

Lemma clean_keep x : clean x = true -> keep_component x = true.
Proof. unfold clean. intros [H _]%andb_prop. exact H. Qed.

Lemma clean_no_slash x : clean x = true -> no_slash x = true.
Proof. unfold clean. intros [_ H]%andb_prop. exact H. Qed.

Lemma normalize_render s :
  exists root parts, is_root root /\ Forall (fun x => clean x = true) parts
                     /\ normalize s = render root parts.
Proof.
  unfold normalize. pose proof (splitroot_is_root s) as Hroot.
  destruct (splitroot s) as [root rel]. simpl in Hroot.
  exists root, (filter (fun x => keep_component x = true) (split_slash rel)).
  split; [assumption|]. split; [|reflexivity].
  apply Forall_forall. intros x Hx.
  apply list_elem_of_filter in Hx as [Hk Hx].
  unfold clean. rewrite Hk. simpl.
  pose proof (split_slash_parts_no_slash rel) as Hall.
  rewrite Forall_forall in Hall. apply Hall. assumption.
Qed.

Lemma keep_component_app x t :
  keep_component x = true -> keep_component (x +:+ t) = true.
Proof.
  unfold keep_component. destruct x as [|c x]; [discriminate|].
  rewrite append_cons. intros H. simpl in *.
  destruct x as [|c' x]; rewrite ?append_nil_l, ?append_cons.
  - destruct t as [|d t]; [assumption|].
    destruct (Ascii.eqb c "."); reflexivity.
  - destruct (Ascii.eqb c "."); reflexivity.
Qed.

Lemma join_snoc_starts_clean ps x :
  Forall (fun y => clean y = true) ps -> clean x = true ->
  forall t, starts_clean (join_slash (ps ++ [x]) +:+ t) = true.
Proof.
  intros Hps Hx t.
  assert (Hhead : forall y r, clean y = true -> starts_clean (y +:+ r) = true).
  { intros y r Hy. destruct y as [|c y]; [discriminate|].
    rewrite append_cons. simpl. apply clean_no_slash in Hy. simpl in Hy.
    apply andb_prop in Hy as [Hc _]. exact Hc. }
  destruct Hps as [|a [|b ps] Ha Hps].
  - cbn [app join_slash]. apply Hhead, Hx.
  - cbn [app]. rewrite join_slash_cons, append_assoc. apply Hhead, Ha.
  - cbn [app]. rewrite join_slash_cons, append_assoc. apply Hhead, Ha.
Qed.

Lemma append_not_empty_r (a t : string) : t <> EmptyString -> a +:+ t <> EmptyString.
Proof. destruct a; [rewrite append_nil_l; auto | rewrite append_cons; discriminate]. Qed.

Lemma append_not_empty_l (a t : string) : a <> EmptyString -> a +:+ t <> EmptyString.
Proof. destruct a; [congruence | rewrite append_cons; discriminate]. Qed.

Lemma eqb_empty_false (r : string) : r <> EmptyString -> String.eqb r EmptyString = false.
Proof. intros H. apply String.eqb_neq. exact H. Qed.

Lemma join_snoc_not_empty ps x : x <> EmptyString -> join_slash (ps ++ [x]) <> EmptyString.
Proof.
  intros Hx. destruct ps as [|a [|b ps]].
  - exact Hx.
  - cbn [app]. rewrite join_slash_cons. apply append_not_empty_r. discriminate.
  - cbn [app]. rewrite join_slash_cons. apply append_not_empty_r. discriminate.
Qed.

(** The printed form of a path with a non-empty last component absorbs
    any slash-free text appended to it. *)
Lemma normalize_render_snoc root ps x t :
  is_root root -> Forall (fun y => clean y = true) ps -> clean x = true ->
  no_slash t = true ->
  normalize (render root (ps ++ [x]) +:+ t) = render root (ps ++ [x]) +:+ t.
Proof.
  intros Hroot Hps Hx Ht.
  assert (Hxne : x <> EmptyString) by (destruct x; [discriminate | discriminate]).
  unfold render. cbv zeta.
  rewrite (eqb_empty_false (root +:+ join_slash (ps ++ [x])))
    by (apply append_not_empty_r, join_snoc_not_empty, Hxne).
  rewrite append_assoc. unfold normalize.
  rewrite splitroot_root by (auto using join_snoc_starts_clean).
  rewrite split_join_snoc.
  - rewrite filter_keep_all.
    + rewrite join_slash_snoc.
      rewrite eqb_empty_false; [reflexivity|].
      apply append_not_empty_r, append_not_empty_l, join_snoc_not_empty, Hxne.
    + apply Forall_app. split.
      * eapply Forall_impl; [exact Hps|]. intros y Hy. apply clean_keep, Hy.
      * constructor; [|constructor]. apply keep_component_app, clean_keep, Hx.
  - eapply Forall_impl; [exact Hps|]. intros y Hy. apply clean_no_slash, Hy.
  - rewrite no_slash_app, Ht, (clean_no_slash x Hx). reflexivity.
Qed.

Lemma no_slash_starts_clean t : no_slash t = true -> starts_clean t = true.
Proof. destruct t as [|c t]; simpl; [reflexivity|]. intros [H _]%andb_prop. exact H. Qed.

Lemma keep_component_iff x :
  x <> EmptyString -> x <> "." -> keep_component x = true.
Proof.
  intros H1 H2. unfold keep_component.
  apply String.eqb_neq in H1, H2. rewrite H1, H2. reflexivity.
Qed.

Lemma normalize_single root x :
  is_root root -> no_slash x = true -> x <> EmptyString -> x <> "." ->
  normalize (root +:+ x) = root +:+ x.
Proof.
  intros Hroot Hx H1 H2. unfold normalize.
  rewrite splitroot_root by auto using no_slash_starts_clean.
  rewrite split_slash_no_slash by assumption.
  rewrite filter_keep_all by (repeat constructor; apply keep_component_iff; assumption).
  cbn [join_slash].
  rewrite eqb_empty_false; [reflexivity|]. apply append_not_empty_r, H1.
Qed.

Lemma normalize_render_nil root t :
  is_root root -> no_slash t = true -> t <> EmptyString -> t <> "." ->
  normalize (render root [] +:+ t) = render root [] +:+ t.
Proof.
  intros Hroot Ht H1 H2.
  destruct Hroot as [-> | [-> | ->]]; cbn [render join_slash];
    rewrite ?append_nil_l, ?append_nil_r; cbv zeta.
  - change (String.eqb EmptyString EmptyString) with true. cbv iota.
    apply (normalize_single EmptyString ("." +:+ t)).
    + left; reflexivity.
    + rewrite no_slash_app, Ht. reflexivity.
    + discriminate.
    + destruct t; [congruence | discriminate].
  - change (String.eqb (String slash EmptyString) EmptyString) with false. cbv iota.
    apply normalize_single; auto. right; left; reflexivity.
  - change (String.eqb (String slash (String slash EmptyString)) EmptyString) with false.
    cbv iota. apply normalize_single; auto. right; right; reflexivity.
Qed.

(** [str(Path(str(p) + t)) = str(p) + t] for a slash-free text [t] that
    is neither empty nor a lone dot. *)
Lemma normalize_append s t :
  no_slash t = true -> t <> EmptyString -> t <> "." ->
  normalize (normalize s +:+ t) = normalize s +:+ t.
Proof.
  intros Ht H1 H2.
  destruct (normalize_render s) as (root & parts & Hroot & Hparts & ->).
  destruct parts as [|x ps _] using rev_ind.
  - apply normalize_render_nil; assumption.
  - apply Forall_app in Hparts as [Hps Hx]. inversion Hx; subst.
    apply normalize_render_snoc; assumption.
Qed.

(** [Path(Path(s))] is [Path(s)]. *)
Lemma normalize_idempotent s : normalize (normalize s) = normalize s.
Proof.
  destruct (normalize_render s) as (root & parts & Hroot & Hparts & ->).
  destruct parts as [|x ps _] using rev_ind.
  - destruct Hroot as [-> | [-> | ->]]; reflexivity.
  - apply Forall_app in Hparts as [Hps Hx]. inversion Hx; subst.
    rewrite <- (append_nil_r (render root (ps ++ [x]))) at 1.
    rewrite normalize_render_snoc by (assumption || reflexivity).
    apply append_nil_r.
Qed.

Lemma Path_packaged s :
  Path_ (path_str (Path_ s) +:+ suffix_packaged) = packaged_path (Path_ s).
Proof.
  unfold packaged_path, Path_. cbn [path_str]. f_equal.
  apply normalize_append; [reflexivity | discriminate | discriminate].
Qed.

(** ** The monad *)

(** ** [execute_command] in full *)

Lemma execute_command_eq E cmd args w :
  execute_command E cmd args w =
    let argv := command_with_args E cmd args in
    let w1 := mkWorld (fs w) (log_level w)
                      (log w ++ debug_log w [MsgExecuting argv])
                      (trace w ++ [EvCheckCall argv]) in
    match mapM (M := option) fspath argv with
    | None => (Raise TypeError, w1)
    | Some strs =>
        match run_child E strs (fs w) with
        | NotFound => (Raise FileNotFoundError, w1)
        | LaunchFailed => (Raise OSError, w1)
        | Exited rc fs' =>
            if (rc =? 0)%Z
            then (Ret tt, mkWorld fs' (log_level w)
                                  (log w ++ debug_log w [MsgExecuting argv; MsgSuccessful])
                                  (trace w ++ [EvCheckCall argv]))
            else (Exit rc, mkWorld fs' (log_level w)
                                   (log w ++ debug_log w [MsgExecuting argv; MsgException rc])
                                   (trace w ++ [EvCheckCall argv]))
        end
    end.
Proof.
  unfold execute_command, check_call, debug_log. unfold_monad.
  generalize (command_with_args E cmd args); intros argv.
  generalize (mapM (M := option) fspath argv); intros o.
  destruct w as [f lv lg tr]; cbn [fs log_level log trace].
  destruct (level_num lv <=? level_num DEBUG)%Z eqn:Hlv;
    cbn [fs log_level log trace map]; rewrite ?app_nil_r;
    (destruct o as [strs|]; [|reflexivity]);
    cbn [fs log_level log trace];
    (destruct (run_child E strs f) as [| |rc f']; try reflexivity);
    destruct (rc =? 0)%Z; cbn [fs log_level log trace];
    rewrite ?Hlv, <- ?app_assoc; reflexivity.
Qed.

(** ** [transform_template] in full *)

Lemma transform_template_eq E i o w :
  transform_template E i o w =
    let w1 := mkWorld (fs w) (log_level w) (log w)
                      (trace w ++ [EvStage Transforming; EvOpen i]) in
    let invalid message causes :=
      (Ret tt, mkWorld (fs w) (log_level w) (log w ++ logged_invalid message causes)
                       (trace w ++ [EvStage Transforming; EvOpen i])) in
    match fs w !! path_str i with
    | None => (Raise FileNotFoundError, w1)
    | Some text =>
        match yaml_parse E text with
        | None => (Raise YAMLError, w1)
        | Some d =>
            match transform E d with
            | TOk d' =>
                match json_dumps 1 d' with
                | Fails e => (Raise (dump_exn e), w1)
                | Text t =>
                    if writable E o
                    then (Ret tt,
                          mkWorld (<[path_str o := t]> (fs w)) (log_level w) (log w)
                                  (trace w ++ [EvStage Transforming; EvOpen i;
                                               EvWrite o t;
                                               EvPrint "Wrote transformed CloudFormation template to: " o]))
                    else
                      match how_write_fails E o t with
                      | OpenFailed why => (Raise (os_exn why), w1)
                      | WriteFailed why kept =>
                          (Raise (os_exn why),
                           mkWorld (<[path_str o := string_take kept t]> (fs w))
                                   (log_level w) (log w)
                                   (trace w ++ [EvStage Transforming; EvOpen i;
                                                EvWrite o (string_take kept t)]))
                      end
                end
            | TInvalid message causes => invalid message causes
            | TRaise (InvalidDocumentException message causes) => invalid message causes
            | TRaise e => (Raise e, w1)
            end
        end
    end.
Proof.
  unfold transform_template, open_read, write_text, print, logged_invalid. unfold_monad.
  destruct w as [f lv lg tr]; cbn [fs log_level log trace].
  rewrite <- !app_assoc. cbn [app].
  destruct (f !! path_str i) as [text|]; [|reflexivity].
  destruct (yaml_parse E text) as [d|]; [|reflexivity].
  destruct (transform E d) as [d'|message causes|e]; cbn [fs log_level log trace].
  - destruct (json_dumps 1 d') as [t|[]]; try reflexivity.
    destruct (writable E o); cbn [fs log_level log trace].
    + rewrite <- !app_assoc. reflexivity.
    + destruct (how_write_fails E o t) as [[]|[] kept]; cbn [fs log_level log trace];
        rewrite <- ?app_assoc; reflexivity.
  - destruct lv; cbn; rewrite <- app_assoc; reflexivity.
  - destruct e; try reflexivity.
    destruct lv; cbn; rewrite <- app_assoc; reflexivity.
Qed.

(** ** [package], [deploy] and the main block *)

Lemma script_eq E opts w :
  script E opts w = dispatch E opts (configured opts w).
Proof.
  unfold script, configure_logging, configured, basicConfig. unfold_monad.
  destruct (verbose opts); reflexivity.
Qed.

Lemma package_eq E opts w :
  package E opts (input_path opts) w =
    let argv := package_argv E opts in
    let tr := trace w ++ [EvStage Packaging; EvCheckCall argv] in
    let w1 := mkWorld (fs w) (log_level w) (log w ++ debug_log w [MsgExecuting argv]) tr in
    match mapM (M := option) fspath argv with
    | None => (Raise TypeError, w1)
    | Some strs =>
        match run_child E strs (fs w) with
        | NotFound => (Raise FileNotFoundError, w1)
        | LaunchFailed => (Raise OSError, w1)
        | Exited rc fs' =>
            if (rc =? 0)%Z
            then (Ret (packaged_path (input_path opts)),
                  mkWorld fs' (log_level w)
                          (log w ++ debug_log w [MsgExecuting argv; MsgSuccessful]) tr)
            else (Exit rc,
                  mkWorld fs' (log_level w)
                          (log w ++ debug_log w [MsgExecuting argv; MsgException rc]) tr)
        end
    end.
Proof.
  unfold package, input_path. unfold_monad. cbn beta iota.
  rewrite execute_command_eq. cbv zeta.
  rewrite !(Path_packaged (path_str (template_file opts))).
  change (Path_ (path_str (template_file opts))) with (input_path opts).
  change (command_with_args E "package" _) with (package_argv E opts).
  generalize (package_argv E opts); intros argv.
  unfold debug_log. cbn [fs log_level log trace]. rewrite <- !app_assoc. cbn [app].
  destruct (mapM fspath argv) as [strs|]; [|reflexivity].
  destruct (run_child E strs (fs w)) as [| |rc f']; try reflexivity.
  destruct (rc =? 0)%Z; reflexivity.
Qed.

Lemma deploy_eq E opts w :
  deploy E opts (output_path opts) w =
    let argv := deploy_argv E opts in
    let tr := trace w ++ [EvStage Deploying; EvCheckCall argv] in
    let w1 := mkWorld (fs w) (log_level w) (log w ++ debug_log w [MsgExecuting argv]) tr in
    match mapM (M := option) fspath argv with
    | None => (Raise TypeError, w1)
    | Some strs =>
        match run_child E strs (fs w) with
        | NotFound => (Raise FileNotFoundError, w1)
        | LaunchFailed => (Raise OSError, w1)
        | Exited rc fs' =>
            if (rc =? 0)%Z
            then (Ret tt,
                  mkWorld fs' (log_level w)
                          (log w ++ debug_log w [MsgExecuting argv; MsgSuccessful]) tr)
            else (Exit rc,
                  mkWorld fs' (log_level w)
                          (log w ++ debug_log w [MsgExecuting argv; MsgException rc]) tr)
        end
    end.
Proof.
  unfold deploy. unfold_monad. cbn beta iota.
  rewrite execute_command_eq. cbv zeta.
  change (command_with_args E "deploy" _) with (deploy_argv E opts).
  generalize (deploy_argv E opts); intros argv.
  unfold debug_log. cbn [fs log_level log trace]. rewrite <- !app_assoc. cbn [app].
  destruct (mapM fspath argv) as [strs|]; [|reflexivity].
  destruct (run_child E strs (fs w)) as [| |rc f']; reflexivity.
Qed.

(** The three shapes of the main block. *)
Lemma dispatch_package E opts :
  command opts = Some "package" ->
  dispatch E opts =
    (q ← package E opts (input_path opts);
     transform_template E q (output_path opts)).
Proof.
  intros Hc. unfold dispatch. rewrite Hc.
  destruct (decide _) as [_|Hn]; [reflexivity | congruence].
Qed.

Lemma dispatch_deploy E opts :
  command opts = Some "deploy" ->
  dispatch E opts =
    (q ← package E opts (input_path opts);
     transform_template E q (output_path opts);;
     deploy E opts (output_path opts)).
Proof.
  intros Hc. unfold dispatch. rewrite Hc.
  destruct (decide _) as [Hn|_]; [discriminate|].
  destruct (decide _) as [_|Hn]; [reflexivity | congruence].
Qed.

Lemma dispatch_default E opts :
  command opts <> Some "package" -> command opts <> Some "deploy" ->
  dispatch E opts = transform_template E (input_path opts) (output_path opts).
Proof.
  intros H1 H2. unfold dispatch.
  destruct (decide _) as [Hn|_]; [congruence|].
  destruct (decide _) as [Hn|_]; [congruence|]. reflexivity.
Qed.

(** ** The transform step *)

(** The trace [transform_template] adds starts with its stage marker and
    the opening of its input; what follows is nothing, or one write and
    one print. *)
Lemma transform_template_trace E i o w :
  exists rest,
    trace (snd (transform_template E i o w))
    = trace w ++ EvStage Transforming :: EvOpen i :: rest
    /\ stages rest = [].
Proof.
  rewrite transform_template_eq. cbv zeta.
  destruct (fs w !! path_str i) as [text|]; [|exists []; split; reflexivity].
  destruct (yaml_parse E text) as [d|]; [|exists []; split; reflexivity].
  destruct (transform E d) as [d'|message causes|e].
  - destruct (json_dumps 1 d') as [t|e]; [|exists []; split; reflexivity].
    destruct (writable E o); [eexists; split; reflexivity|].
    destruct (how_write_fails E o t) as [why|why kept];
      [exists []; split; reflexivity | eexists; split; reflexivity].
  - exists []; split; reflexivity.
  - destruct e; exists []; split; reflexivity.
Qed.

Lemma transform_template_invalid E i o w text d message causes :
  fs w !! path_str i = Some text ->
  yaml_parse E text = Some d ->
  transform E d = TInvalid message causes ->
  transform_template E i o w = (Ret tt, after_invalid i message causes w).
Proof.
  intros Hfile Hparse Htr. rewrite transform_template_eq. cbv zeta.
  rewrite Hfile, Hparse, Htr. reflexivity.
Qed.

(** After a validation error under [deploy], the deployment still runs,
    on whatever the output path held before. *)
Lemma validation_error_then_deploy E opts w text d message causes :
  fs w !! path_str (packaged_path (input_path opts)) = Some text ->
  yaml_parse E text = Some d ->
  transform E d = TInvalid message causes ->
  (transform_template E (packaged_path (input_path opts)) (output_path opts);;
   deploy E opts (output_path opts)) w
  = deploy E opts (output_path opts)
           (after_invalid (packaged_path (input_path opts)) message causes w).
Proof.
  intros Hfile Hparse Htr. unfold mbind, M_bind, bind.
  rewrite (transform_template_invalid E _ _ w text d message causes) by assumption.
  reflexivity.
Qed.

(** C1: when the transformation raises a validation error, the transform
    step logs the error, leaves the file system as it was (no write is
    performed), and returns normally: whatever follows it runs next, and
    with the default sub-command the script ends with exit status 0. *)
Theorem validation_error_is_logged_and_swallowed
        E i o w text d message causes :
  fs w !! path_str i = Some text ->
  yaml_parse E text = Some d ->
  transform E d = TInvalid message causes ->
  transform_template E i o w = (Ret tt, after_invalid i message causes w)
  /\ fs (after_invalid i message causes w) = fs w
  /\ log (after_invalid i message causes w)
     = log w ++ [(ERROR, MsgText (error_message message causes));
                 (ERROR, MsgGenerator causes)]
  /\ trace (after_invalid i message causes w)
     = trace w ++ [EvStage Transforming; EvOpen i]
  /\ (forall k : M unit,
        (transform_template E i o ≫= fun _ => k) w
        = k (after_invalid i message causes w))
  /\ (forall opts,
        input_path opts = i -> output_path opts = o ->
        command opts <> Some "package" -> command opts <> Some "deploy" ->
        script E opts w
        = (Ret tt, after_invalid i message causes (configured opts w))
        /\ exit_code (fst (script E opts w)) = 0%Z).
Proof.
  intros Hfile Hparse Htr.
  pose proof (fun w0 (H : fs w0 !! path_str i = Some text) =>
                transform_template_invalid E i o w0 text d message causes H Hparse Htr)
    as Hstep.
  split; [apply Hstep; assumption|].
  split; [reflexivity|]. split; [reflexivity|]. split; [reflexivity|].
  split.
  - intros k. unfold mbind, M_bind, bind. rewrite Hstep by assumption. reflexivity.
  - intros opts Hi Ho H1 H2. rewrite script_eq, dispatch_default by assumption.
    rewrite Hi, Ho, Hstep by assumption. split; reflexivity.
Qed.

(** C5 (as amended): when the transformation succeeds, the transform
    step hands the document to [json.dumps(document, indent=1)].  When
    that returns a text and the write goes through, the file at the
    output path afterwards holds exactly this text, one space per
    nesting level, whatever it held before.  When [json.dumps] rejects
    the document (a value or key it cannot serialise, a circular
    reference, an integer too long to convert), its exception leaves the
    step and nothing is written. *)
Theorem output_is_json_with_indent_one E i o w text d d' :
  fs w !! path_str i = Some text ->
  yaml_parse E text = Some d ->
  transform E d = TOk d' ->
  (forall t,
     json_dumps 1 d' = Text t ->
     writable E o = true ->
     fst (transform_template E i o w) = Ret tt
     /\ fs (snd (transform_template E i o w)) = <[path_str o := t]> (fs w)
     /\ fs (snd (transform_template E i o w)) !! path_str o = Some t
     /\ trace (snd (transform_template E i o w))
        = trace w ++ [EvStage Transforming; EvOpen i; EvWrite o t;
                      EvPrint "Wrote transformed CloudFormation template to: " o])
  /\ (forall e,
        json_dumps 1 d' = Fails e ->
        transform_template E i o w
        = (Raise (dump_exn e),
           mkWorld (fs w) (log_level w) (log w)
                   (trace w ++ [EvStage Transforming; EvOpen i]))).
Proof.
  intros Hfile Hparse Htr. split.
  - intros t Ht Hw.
    rewrite transform_template_eq. cbv zeta. rewrite Hfile, Hparse, Htr, Ht, Hw.
    cbn [fst snd fs trace]. repeat split. apply lookup_insert_eq.
  - intros e He.
    rewrite transform_template_eq. cbv zeta. rewrite Hfile, Hparse, Htr, He.
    reflexivity.
Qed.

(** C6: for a validation error with two causes the logged message is the
    top-level message, the first cause and the second cause, in this
    order, separated by single spaces. *)
Theorem two_causes_are_logged_in_order E i o w text d message c1 c2 :
  fs w !! path_str i = Some text ->
  yaml_parse E text = Some d ->
  transform E d = TInvalid message [c1; c2] ->
  error_message message [c1; c2] = message +:+ " " +:+ c1 +:+ " " +:+ c2
  /\ log (snd (transform_template E i o w))
     = log w ++ [(ERROR, MsgText (message +:+ " " +:+ c1 +:+ " " +:+ c2));
                 (ERROR, MsgGenerator [c1; c2])].
Proof.
  intros Hfile Hparse Htr.
  assert (Hmsg : error_message message [c1; c2]
                 = message +:+ " " +:+ c1 +:+ " " +:+ c2).
  { unfold error_message. cbn [fold_left]. rewrite !append_assoc. reflexivity. }
  split; [exact Hmsg|].
  rewrite transform_template_eq. cbv zeta. rewrite Hfile, Hparse, Htr.
  cbn [snd log]. unfold logged_invalid. rewrite Hmsg. reflexivity.
Qed.

(** C7: with the default sub-command and an input file that does not
    parse as YAML, the script stops with the parser's exception right
    after opening the input: nothing is written and the file system is
    as before. *)
Theorem malformed_yaml_writes_nothing E opts w text :
  command opts <> Some "package" -> command opts <> Some "deploy" ->
  fs w !! path_str (input_path opts) = Some text ->
  yaml_parse E text = None ->
  fst (script E opts w) = Raise YAMLError
  /\ fs (snd (script E opts w)) = fs w
  /\ trace (snd (script E opts w))
     = trace w ++ [EvStage Transforming; EvOpen (input_path opts)].
Proof.
  intros H1 H2 Hfile Hparse.
  rewrite script_eq, dispatch_default, transform_template_eq by assumption.
  cbv zeta. cbn [configured fs]. rewrite Hfile, Hparse.
  repeat split.
Qed.

(** ** The child processes *)

(** C9: when the cloud CLI executable is not found, [execute_command]
    fails with [FileNotFoundError]: it neither exits the process with a
    return code nor fails with the error of a non-zero child exit. *)
Theorem executable_not_found_is_not_an_exit E cmd args strs w :
  mapM (M := option) fspath (command_with_args E cmd args) = Some strs ->
  run_child E strs (fs w) = NotFound ->
  fst (execute_command E cmd args w) = Raise FileNotFoundError
  /\ (forall rc, fst (execute_command E cmd args w) <> Exit rc)
  /\ (forall rc, fst (execute_command E cmd args w) <> Raise (CalledProcessError rc))
  /\ fs (snd (execute_command E cmd args w)) = fs w.
Proof.
  intros Hargv Hchild. rewrite execute_command_eq. cbv zeta.
  rewrite Hargv, Hchild. cbn [fst snd fs]. repeat split; discriminate.
Qed.

(** The other side of C9: a child that returns a non-zero code ends the
    process with that code. *)
Lemma nonzero_exit_is_propagated E cmd args strs w rc fs' :
  mapM (M := option) fspath (command_with_args E cmd args) = Some strs ->
  run_child E strs (fs w) = Exited rc fs' ->
  rc <> 0%Z ->
  fst (execute_command E cmd args w) = Exit rc.
Proof.
  intros Hargv Hchild Hrc. rewrite execute_command_eq. cbv zeta.
  rewrite Hargv, Hchild. apply Z.eqb_neq in Hrc. rewrite Hrc. reflexivity.
Qed.

Lemma package_argv_fspath E opts b :
  s3_bucket opts = Some b ->
  mapM (M := option) fspath (package_argv E opts) = Some (package_command_line E opts b).
Proof. intros Hb. unfold package_argv. rewrite Hb. reflexivity. Qed.

(** C2: under [package] or [deploy], when the packaging child exits with
    a non-zero code [n], the script exits at once with [sys.exit(n)],
    that is with status [n]: the trace holds the packaging stage and its
    one process call and nothing else, and the file system is exactly
    what the child left (the script itself creates or changes no
    file). *)
Theorem packaging_failure_exits_with_child_code E opts w b n fs' :
  command opts = Some "package" \/ command opts = Some "deploy" ->
  s3_bucket opts = Some b ->
  run_child E (package_command_line E opts b) (fs w) = Exited n fs' ->
  n <> 0%Z ->
  fst (script E opts w) = Exit n
  /\ ((0 < n < 256)%Z -> exit_code (fst (script E opts w)) = n)
  /\ trace (snd (script E opts w))
     = trace w ++ [EvStage Packaging; EvCheckCall (package_argv E opts)]
  /\ stages [EvStage Packaging; EvCheckCall (package_argv E opts)] = [Packaging]
  /\ fs (snd (script E opts w)) = fs'.
Proof.
  intros Hcmd Hb Hchild Hn. apply Z.eqb_neq in Hn.
  assert (Hpkg : package E opts (input_path opts) (configured opts w)
                 = (Exit n,
                    mkWorld fs' (log_level (configured opts w))
                            (log w ++ debug_log (configured opts w)
                                       [MsgExecuting (package_argv E opts);
                                        MsgException n])
                            (trace w ++ [EvStage Packaging;
                                         EvCheckCall (package_argv E opts)]))).
  { rewrite package_eq. cbv zeta. rewrite (package_argv_fspath E opts b Hb).
    cbn [configured fs log trace]. rewrite Hchild, Hn. reflexivity. }
  rewrite script_eq.
  destruct Hcmd as [Hc|Hc];
    [rewrite dispatch_package by assumption | rewrite dispatch_deploy by assumption];
    unfold mbind, M_bind, bind; rewrite Hpkg; repeat split;
    intros Hrange; apply Z.mod_small; lia.
Qed.

(** ** Stages and their order *)

Lemma package_trace E opts w :
  trace (snd (package E opts (input_path opts) w))
  = trace w ++ [EvStage Packaging; EvCheckCall (package_argv E opts)]
  /\ (forall q, fst (package E opts (input_path opts) w) = Ret q ->
                q = packaged_path (input_path opts)).
Proof.
  rewrite package_eq. cbv zeta.
  destruct (mapM fspath (package_argv E opts)) as [strs|]; [|split; [reflexivity|discriminate]].
  destruct (run_child E strs (fs w)) as [| |rc f']; try (split; [reflexivity|discriminate]).
  destruct (rc =? 0)%Z; split; try reflexivity; try discriminate.
  intros q [= <-]. reflexivity.
Qed.

Lemma deploy_trace E opts w :
  trace (snd (deploy E opts (output_path opts) w))
  = trace w ++ [EvStage Deploying; EvCheckCall (deploy_argv E opts)].
Proof.
  rewrite deploy_eq. cbv zeta.
  destruct (mapM fspath (deploy_argv E opts)) as [strs|]; [|reflexivity].
  destruct (run_child E strs (fs w)) as [| |rc f']; try reflexivity.
  destruct (rc =? 0)%Z; reflexivity.
Qed.

Lemma stages_cons ev tr :
  stages (ev :: tr)
  = match stage_of ev with
    | Some s => s :: stages tr
    | None => stages tr
    end.
Proof. reflexivity. Qed.





(** C10: every sub-command other than [package] and [deploy], absent or
    not, makes the script behave as with no sub-command: it is the
    transform step on the configured input and output paths, and the
    only stage entered is the transform stage. *)
Theorem other_subcommands_only_transform E opts :
  command opts <> Some "package" -> command opts <> Some "deploy" ->
  script E opts = script E (set_command None opts)
  /\ forall w,
       script E opts w
       = transform_template E (input_path opts) (output_path opts) (configured opts w)
       /\ exists rest,
            trace (snd (script E opts w))
            = trace w ++ EvStage Transforming :: EvOpen (input_path opts) :: rest
            /\ stages (EvStage Transforming :: EvOpen (input_path opts) :: rest)
               = [Transforming].
Proof.
  intros H1 H2. split.
  - unfold script. rewrite !dispatch_default by (assumption || discriminate).
    reflexivity.
  - intros w. rewrite script_eq, dispatch_default by assumption.
    split; [reflexivity|].
    destruct (transform_template_trace E (input_path opts) (output_path opts)
                (configured opts w)) as (rest & Ht & Hs).
    exists rest. split; [exact Ht|].
    rewrite !stages_cons. cbn [stage_of]. rewrite Hs. reflexivity.
Qed.

(** ** The command line *)

Lemma classify_untouched a argv toks after :
  classify argv = Some (toks, after) -> omitted a argv -> untouched a toks.
Proof.
  revert toks. induction argv as [|s argv IH]; intros toks Hc Hom.
  - injection Hc as <- <-. constructor.
  - cbn [classify] in Hc. inversion Hom as [|? ? Hs Hrest]; subst.
    destruct (String.eqb s "--"); [injection Hc as <- <-; constructor|].
    unfold selects in Hs.
    destruct (classify argv) as [[toks' after']|];
      [|destruct (parse_optional s); discriminate].
    specialize (IH toks').
    destruct (parse_optional s) as [|a' o e| |] eqn:Hp; try discriminate;
      injection Hc as <- <-; constructor; try (apply IH; auto); try exact I.
    intros ->. rewrite bool_decide_eq_true_2 in Hs by reflexivity. discriminate.
Qed.

Lemma classify_no_positional argv toks after :
  classify argv = Some (toks, after) -> no_positional argv ->
  no_TokA toks /\ after = None.
Proof.
  revert toks. induction argv as [|s argv IH]; intros toks Hc Hnp.
  - injection Hc as <- <-. split; [constructor | reflexivity].
  - cbn [classify] in Hc. inversion Hnp as [|? ? [Hs Hdash] Hrest]; subst.
    apply String.eqb_neq in Hdash. rewrite Hdash in Hc.
    destruct (parse_optional s) as [|a' o e| |] eqn:Hp; try discriminate;
      try contradiction;
      destruct (classify argv) as [[toks' after']|]; try discriminate;
      injection Hc as <- <-;
      destruct (IH toks' eq_refl Hrest) as [Hn ->];
      (split; [constructor; [exact I | exact Hn] | reflexivity]).
Qed.

(** A field that only option [a] writes keeps its value through the
    consumption loop when [a] does not occur. *)
Lemma consume_keeps {A} (f : Options -> A) (a : action) :
  (forall a' v ns, a' <> a -> f (store a' v ns) = f ns) ->
  (a <> ActVerbose -> forall ns, f (store_true ns) = f ns) ->
  (forall c ns, f (set_command c ns) = f ns) ->
  forall n toks after ns pending extras ns',
    length toks <= n -> untouched a toks ->
    consume toks after ns pending extras = Parsed ns' -> f ns' = f ns.
Proof.
  intros Hstore Htrue Hcmd.
  assert (Hfin : forall ns e ns', finish ns e = Parsed ns' -> ns' = ns).
  { intros ns [] ns'; cbn; [discriminate | congruence]. }
  induction n as [|n IH]; intros toks after ns pending extras ns' Hlen Hun Hres.
  - destruct toks; [|cbn in Hlen; lia]. cbn in Hres.
    destruct after as [[|c more]|]; destruct pending; try discriminate;
      apply Hfin in Hres; subst; auto.
  - destruct toks as [|t rest].
    { apply (IH [] after ns pending extras ns'); [cbn; lia | constructor | exact Hres]. }
    inversion Hun as [|? ? Ht Hrest]; subst. cbn [length] in Hlen.
    destruct t as [s|[a'|] o e]; cbn [consume] in Hres.
    + destruct pending.
      * destruct rest as [|t' rest'].
        -- destruct after as [strs|].
           ++ apply Hfin in Hres. subst. apply Hcmd.
           ++ apply IH in Hres; [|cbn; lia|constructor]. rewrite Hres. apply Hcmd.
        -- apply IH in Hres; [|cbn in *; lia|assumption]. rewrite Hres. apply Hcmd.
      * apply IH in Hres; [assumption|lia|assumption].
    + destruct e as [v|].
      * destruct (takes_argument a').
        -- apply IH in Hres; [|lia|assumption]. rewrite Hres. apply Hstore, Ht.
        -- destruct (String.eqb o "-h"); [|discriminate].
           clear -Hres. exfalso. induction v as [|c v IHv]; cbn in Hres; [discriminate|].
           destruct (Ascii.eqb c "h"); [|discriminate].
           destruct (String.eqb v EmptyString); [discriminate | auto].
      * destruct (takes_argument a') eqn:Hta.
        -- destruct rest as [|[v|] rest']; try discriminate.
           inversion Hrest; subst.
           apply IH in Hres; [|cbn in *; lia|assumption].
           rewrite Hres. apply Hstore, Ht.
        -- destruct a'; try discriminate.
           apply IH in Hres; [|lia|assumption]. rewrite Hres.
           apply Htrue. congruence.
    + apply IH in Hres; [assumption|lia|assumption].
Qed.

Lemma help_chain_not_parsed v ns : help_chain v <> Parsed ns.
Proof.
  induction v as [|c v IH]; cbn; [discriminate|].
  destruct (Ascii.eqb c "h"); [|discriminate].
  destruct (String.eqb v EmptyString); [discriminate | exact IH].
Qed.

(** Without positional arguments the command stays as it was. *)
Lemma consume_command_none toks ns pending extras ns' :
  no_TokA toks ->
  consume toks None ns pending extras = Parsed ns' -> command ns' = command ns.
Proof.
  revert ns pending extras.
  induction toks as [|t rest IH]; intros ns pending extras Hno Hres.
  - cbn in Hres. destruct extras; cbn in Hres; [discriminate | congruence].
  - inversion Hno as [|? ? Ht Hrest]; subst.
    destruct t as [s|[a'|] o e]; [contradiction| |]; cbn [consume] in Hres.
    + destruct e as [v|].
      * destruct (takes_argument a').
        -- apply IH in Hres; [|assumption]. rewrite Hres. destruct a'; reflexivity.
        -- destruct (String.eqb o "-h"); [|discriminate].
           exfalso. exact (help_chain_not_parsed v ns' Hres).
      * destruct (takes_argument a').
        -- destruct rest as [|[v|] rest']; try discriminate.
           inversion Hrest; subst. contradiction.
        -- destruct a'; try discriminate;
             (apply IH in Hres; [|assumption]); rewrite Hres; reflexivity.
    + apply IH in Hres; assumption.
Qed.

(** C8: in every namespace [parse_args] produces, the template path is
    [template.yaml] when [--template-file] is omitted, the output path is
    [transformed-template.json] when [--output-template] is omitted,
    [verbose] is false when [--verbose] is omitted, and the command is
    absent when no positional is given; the empty command line is
    accepted (the positional is optional), and [--verbose] is a flag
    that takes no value. *)
Theorem parse_args_defaults argv ns :
  parse_args argv = Parsed ns ->
  (omitted ActTemplateFile argv -> template_file ns = mkPath "template.yaml")
  /\ (omitted ActOutputTemplate argv ->
      output_template ns = mkPath "transformed-template.json")
  /\ (omitted ActVerbose argv -> verbose ns = false)
  /\ (no_positional argv -> command ns = None)
  /\ parse_args []
     = Parsed (mkOptions None (mkPath "template.yaml")
                         (mkPath "transformed-template.json") None None None false)
  /\ parse_args ["--verbose"]
     = Parsed (mkOptions None (mkPath "template.yaml")
                         (mkPath "transformed-template.json") None None None true)
  /\ parse_args ["--verbose=true"] = ParseExit 2.
Proof.
  unfold parse_args. intros Hres.
  destruct (classify argv) as [[toks after]|] eqn:Hc; [|discriminate].
  repeat split.
  - intros Hom.
    apply (consume_keeps template_file ActTemplateFile) with (n := length toks) in Hres;
      [exact Hres | | | | | ]; try (intros; reflexivity); try lia.
    + intros a' v ns0 Ha. destruct a'; try reflexivity. contradiction.
    + eapply classify_untouched; eassumption.
  - intros Hom.
    apply (consume_keeps output_template ActOutputTemplate) with (n := length toks) in Hres;
      [exact Hres | | | | | ]; try (intros; reflexivity); try lia.
    + intros a' v ns0 Ha. destruct a'; try reflexivity. contradiction.
    + eapply classify_untouched; eassumption.
  - intros Hom.
    apply (consume_keeps verbose ActVerbose) with (n := length toks) in Hres;
      [exact Hres | | | | | ]; try (intros; reflexivity); try lia.
    + intros a' v ns0 Ha. destruct a'; reflexivity.
    + intros Hne. contradiction.
    + eapply classify_untouched; eassumption.
  - intros Hnp. destruct (classify_no_positional argv toks after Hc Hnp) as [Hno ->].
    apply consume_command_none in Hres; assumption.
Qed.

(** ** The claims on concrete runs *)

Lemma validation_error_is_logged_and_swallowed_witness :
  fs sample_world !! "template.yaml" = Some "Resources: {}"
  /\ transform invalid_env DNull = TInvalid "Invalid document." ["first"; "second"]
  /\ transform_template invalid_env (mkPath "template.yaml")
                        (mkPath "transformed-template.json") sample_world
     = (Ret tt,
        mkWorld (fs sample_world) WARNING
                [(ERROR, MsgText "Invalid document. first second");
                 (ERROR, MsgGenerator ["first"; "second"])]
                [EvStage Transforming; EvOpen (mkPath "template.yaml")])
  /\ exit_code (fst (script invalid_env sample_options sample_world)) = 0%Z.
Proof.
  destruct (validation_error_is_logged_and_swallowed
              invalid_env (mkPath "template.yaml") (mkPath "transformed-template.json")
              sample_world "Resources: {}" DNull "Invalid document."
              ["first"; "second"] eq_refl eq_refl eq_refl)
    as (Hstep & _ & _ & _ & _ & Hscript).
  split; [reflexivity|]. split; [reflexivity|]. split; [exact Hstep|].
  apply (Hscript sample_options); [reflexivity | reflexivity | discriminate | discriminate].
Defined.

Lemma packaging_failure_exits_with_child_code_witness :
  run_child invalid_env
            (package_command_line invalid_env (opts_with (Some "deploy")) "my-bucket")
            (fs sample_world)
  = Exited 2 (fs sample_world)
  /\ fst (script invalid_env (opts_with (Some "deploy")) sample_world) = Exit 2
  /\ exit_code (fst (script invalid_env (opts_with (Some "deploy")) sample_world)) = 2%Z
  /\ fs (snd (script invalid_env (opts_with (Some "deploy")) sample_world))
     = fs sample_world.
Proof.
  destruct (packaging_failure_exits_with_child_code
              invalid_env (opts_with (Some "deploy")) sample_world "my-bucket" 2
              (fs sample_world) (or_intror eq_refl) eq_refl eq_refl)
    as (Hexit & Hcode & _ & _ & Hfs); [discriminate|].
  split; [reflexivity|]. split; [exact Hexit|]. split; [apply Hcode; lia | exact Hfs].
Defined.


Lemma output_is_json_with_indent_one_witness :
  json_dumps 1 sample_doc = Text sample_text
  /\ writable sample_env (mkPath "transformed-template.json") = true
  /\ fs (snd (transform_template sample_env (mkPath "template.yaml")
                                 (mkPath "transformed-template.json") sample_world))
     !! "transformed-template.json"
     = Some sample_text.
Proof.
  split; [reflexivity|]. split; [reflexivity|].
  apply (output_is_json_with_indent_one
           sample_env (mkPath "template.yaml") (mkPath "transformed-template.json")
           sample_world "Resources: {}" sample_doc sample_doc
           eq_refl eq_refl eq_refl); reflexivity.
Defined.

Lemma two_causes_are_logged_in_order_witness :
  transform invalid_env DNull = TInvalid "Invalid document." ["first"; "second"]
  /\ log (snd (transform_template invalid_env (mkPath "template.yaml")
                                  (mkPath "transformed-template.json") sample_world))
     = [(ERROR, MsgText "Invalid document. first second");
        (ERROR, MsgGenerator ["first"; "second"])].
Proof.
  split; [reflexivity|].
  apply (two_causes_are_logged_in_order
           invalid_env (mkPath "template.yaml") (mkPath "transformed-template.json")
           sample_world "Resources: {}" DNull "Invalid document." "first" "second"
           eq_refl eq_refl eq_refl).
Defined.

Lemma malformed_yaml_writes_nothing_witness :
  yaml_parse sample_env "Resources: [" = None
  /\ fst (script sample_env sample_options malformed_world) = Raise YAMLError
  /\ fs (snd (script sample_env sample_options malformed_world)) = fs malformed_world.
Proof.
  destruct (malformed_yaml_writes_nothing
              sample_env sample_options malformed_world "Resources: [")
    as (Hr & Hfs & _); try reflexivity; try discriminate.
  split; [reflexivity|]. split; [exact Hr | exact Hfs].
Defined.

Lemma parse_args_defaults_witness :
  parse_args ["--s3-bucket=b"; "--stack-name"; "s"; "deploy"]
  = Parsed (mkOptions (Some "deploy") (mkPath "template.yaml")
                      (mkPath "transformed-template.json")
                      (Some "b") None (Some "s") false)
  /\ template_file (mkOptions (Some "deploy") (mkPath "template.yaml")
                              (mkPath "transformed-template.json")
                              (Some "b") None (Some "s") false)
     = mkPath "template.yaml".
Proof.
  split; [reflexivity|].
  apply (parse_args_defaults ["--s3-bucket=b"; "--stack-name"; "s"; "deploy"] _ eq_refl).
  repeat constructor.
Defined.

Lemma executable_not_found_is_not_an_exit_witness :
  run_child sample_env ["aws"; "cloudformation"; "validate-template"] (fs sample_world)
  = NotFound
  /\ fst (execute_command sample_env "validate-template" [] sample_world)
     = Raise FileNotFoundError.
Proof.
  split; [reflexivity|].
  apply (executable_not_found_is_not_an_exit
           sample_env "validate-template" [] ["aws"; "cloudformation"; "validate-template"]
           sample_world eq_refl eq_refl).
Defined.

Lemma other_subcommands_only_transform_witness :
  script sample_env (opts_with (Some "packge"))
  = script sample_env (opts_with None).
Proof.
  apply (other_subcommands_only_transform sample_env (opts_with (Some "packge")));
    discriminate.
Defined.

(** C5, as the specification words it, fails: the file written for
    [sample_doc] is not its two-space rendering. *)
Lemma output_is_not_two_space_json :
  fs sample_world !! "template.yaml" = Some "Resources: {}"
  /\ yaml_parse sample_env "Resources: {}" = Some sample_doc
  /\ transform sample_env sample_doc = TOk sample_doc
  /\ fst (transform_template sample_env (mkPath "template.yaml")
                             (mkPath "transformed-template.json") sample_world)
     = Ret tt
  /\ text_of (spec_json_dumps sample_doc) <> None
  /\ fs (snd (transform_template sample_env (mkPath "template.yaml")
                                 (mkPath "transformed-template.json") sample_world))
     !! "transformed-template.json"
     <> text_of (spec_json_dumps sample_doc).
Proof.
  repeat split; vm_compute; discriminate.
Qed.

(** * Further properties of the script *)

(** ** The transform step, outcome by outcome *)

(** Every outcome of [transform_template]: it wrote the document, it
    logged a validation error, it raised without touching the output, or
    it raised after a write that failed midway. *)
Lemma transform_template_cases E i o w :
  (exists text d d' t,
     fs w !! path_str i = Some text /\ yaml_parse E text = Some d
     /\ transform E d = TOk d' /\ json_dumps 1 d' = Text t
     /\ transform_template E i o w
        = (Ret tt,
           mkWorld (<[path_str o := t]> (fs w)) (log_level w) (log w)
                   (trace w ++ step_events i o (Wrote t))))
  \/ (exists message causes,
        transform_template E i o w = (Ret tt, after_invalid i message causes w))
  \/ (exists e,
        transform_template E i o w
        = (Raise e,
           mkWorld (fs w) (log_level w) (log w) (trace w ++ step_events i o NotWritten)))
  \/ (exists text d d' t why kept,
        fs w !! path_str i = Some text /\ yaml_parse E text = Some d
        /\ transform E d = TOk d' /\ json_dumps 1 d' = Text t
        /\ transform_template E i o w
           = (Raise (os_exn why),
              mkWorld (<[path_str o := string_take kept t]> (fs w)) (log_level w) (log w)
                      (trace w ++ step_events i o (Truncated (string_take kept t))))).
Proof.
  rewrite transform_template_eq. cbv zeta. unfold step_events, after_invalid.
  destruct (fs w !! path_str i) as [text|] eqn:Hfile;
    [|right; right; left; eexists; reflexivity].
  destruct (yaml_parse E text) as [d|] eqn:Hparse;
    [|right; right; left; eexists; reflexivity].
  destruct (transform E d) as [d'|message causes|e] eqn:Htr.
  - destruct (json_dumps 1 d') as [t|e] eqn:Hdump;
      [|right; right; left; eexists; reflexivity].
    destruct (writable E o).
    + left. exists text, d, d', t. repeat split; assumption.
    + destruct (how_write_fails E o t) as [why|why kept].
      * right; right; left. eexists; reflexivity.
      * right; right; right. exists text, d, d', t, why, kept. repeat split; assumption.
  - right; left. eexists _, _. reflexivity.
  - destruct e; try (right; right; left; eexists; reflexivity).
    right; left. eexists _, _. reflexivity.
Qed.

(** X1: whatever happens, the transform step never ends the process by
    itself, and afterwards the output path holds either what it held
    before or the beginning of the JSON text of the document the
    transformation returned for the parsed input: the whole text when
    the step returns normally after its write, a part of it when the
    write failed midway.  When the step recorded no write, the file
    system is as it was. *)
Theorem transform_template_touches_only_the_output E i o w :
  (forall n, fst (transform_template E i o w) <> Exit n)
  /\ (fs (snd (transform_template E i o w)) !! path_str o = fs w !! path_str o
      \/ exists text d d' t kept,
           fs w !! path_str i = Some text /\ yaml_parse E text = Some d
           /\ transform E d = TOk d' /\ json_dumps 1 d' = Text t
           /\ fs (snd (transform_template E i o w)) !! path_str o
              = Some (string_take kept t)
           /\ (fst (transform_template E i o w) = Ret tt -> string_take kept t = t))
  /\ (forall tr,
        trace (snd (transform_template E i o w)) = trace w ++ tr ->
        writes tr = [] ->
        fs (snd (transform_template E i o w)) = fs w).
Proof.
  assert (Hfull : forall t, string_take (String.length t) t = t).
  { induction t as [|c t IH]; [reflexivity|]. cbn. rewrite IH. reflexivity. }
  destruct (transform_template_cases E i o w)
    as [(text & d & d' & t & Hfile & Hparse & Htr & Hdump & ->)
       |[(message & causes & ->)
        |[(e & ->)
         |(text & d & d' & t & why & kept & Hfile & Hparse & Htr & Hdump & ->)]]];
    cbn [fst snd fs trace after_invalid].
  - split; [discriminate|]. split.
    + right. exists text, d, d', t, (String.length t).
      rewrite Hfull, lookup_insert_eq. repeat split; assumption.
    + intros tr Heq Hw. apply app_inv_head in Heq. subst tr. discriminate.
  - split; [discriminate|]. split; [left; reflexivity | reflexivity].
  - split; [discriminate|]. split; [left; reflexivity | reflexivity].
  - split; [discriminate|]. split.
    + right. exists text, d, d', t, kept.
      rewrite lookup_insert_eq. repeat split; try assumption. discriminate.
    + intros tr Heq Hw. apply app_inv_head in Heq. subst tr. discriminate.
Qed.

(** X2: with the default sub-command, a template file that does not
    exist ends the script with [FileNotFoundError] (exit status 1) right
    after the attempt to open it: nothing is parsed, written or
    logged. *)
Theorem missing_template_raises E opts w :
  command opts <> Some "package" -> command opts <> Some "deploy" ->
  fs w !! path_str (input_path opts) = None ->
  script E opts w
  = (Raise FileNotFoundError,
     mkWorld (fs w) (if verbose opts then DEBUG else WARNING) (log w)
             (trace w ++ [EvStage Transforming; EvOpen (input_path opts)]))
  /\ exit_code (fst (script E opts w)) = 1%Z.
Proof.
  intros H1 H2 Hfile.
  rewrite script_eq, dispatch_default, transform_template_eq by assumption.
  cbv zeta. cbn [configured fs log_level log trace]. rewrite Hfile.
  split; reflexivity.
Qed.

(** X3: an exception of the transformation that is not a validation
    error is not handled: it leaves [transform_template] as it is, with
    nothing written and nothing logged. *)
Theorem other_transform_errors_propagate E i o w text d e :
  fs w !! path_str i = Some text ->
  yaml_parse E text = Some d ->
  transform E d = TRaise e ->
  (forall message causes, e <> InvalidDocumentException message causes) ->
  transform_template E i o w
  = (Raise e,
     mkWorld (fs w) (log_level w) (log w)
             (trace w ++ [EvStage Transforming; EvOpen i])).
Proof.
  intros Hfile Hparse Htr Hne.
  rewrite transform_template_eq. cbv zeta. rewrite Hfile, Hparse, Htr.
  destruct e; try reflexivity. exfalso. eapply Hne. reflexivity.
Qed.

(** X4: when the transformation and [json.dumps] have succeeded but the
    write does not go through, the transform step raises the operating
    system's error out of its [try] block, with no confirmation printed
    and nothing logged.  If the open failed (a missing directory gives
    [FileNotFoundError]) the file system is as before; if the write
    failed after the open, the output path is left holding only the part
    of the text that was written, and what it held before is gone. *)
Theorem unwritable_output_raises E i o w text d d' t :
  fs w !! path_str i = Some text ->
  yaml_parse E text = Some d ->
  transform E d = TOk d' ->
  json_dumps 1 d' = Text t ->
  writable E o = false ->
  (forall why,
     how_write_fails E o t = OpenFailed why ->
     transform_template E i o w
     = (Raise (os_exn why),
        mkWorld (fs w) (log_level w) (log w)
                (trace w ++ [EvStage Transforming; EvOpen i])))
  /\ (forall why kept,
        how_write_fails E o t = WriteFailed why kept ->
        transform_template E i o w
        = (Raise (os_exn why),
           mkWorld (<[path_str o := string_take kept t]> (fs w)) (log_level w) (log w)
                   (trace w ++ [EvStage Transforming; EvOpen i;
                                EvWrite o (string_take kept t)]))
        /\ fs (snd (transform_template E i o w)) !! path_str o
           = Some (string_take kept t))
  /\ os_exn NoSuchFile = FileNotFoundError.
Proof.
  intros Hfile Hparse Htr Hdump Hw.
  rewrite transform_template_eq. cbv zeta. rewrite Hfile, Hparse, Htr, Hdump, Hw.
  split; [|split; [|reflexivity]].
  - intros why ->. reflexivity.
  - intros why kept ->. split; [reflexivity|]. apply lookup_insert_eq.
Qed.

(** A transformation that returns a date in the document: [json.dumps]
    raises [TypeError], which is not handled, and nothing is written. *)
Lemma unserialisable_document_is_a_type_error :
  json_dumps 1 (DDict [(KStr (ustr "Version"), DOther)]) = Fails NotSerializable
  /\ fst (transform_template dated_env (mkPath "template.yaml")
                             (mkPath "transformed-template.json") sample_world)
     = Raise TypeError
  /\ fs (snd (transform_template dated_env (mkPath "template.yaml")
                                 (mkPath "transformed-template.json") sample_world))
     = fs sample_world.
Proof.
  rewrite transform_template_eq. cbv zeta. repeat split.
Qed.

(** An output the user may not open for writing: [PermissionError], and
    the file system is as before. *)
Lemma refused_open_is_a_permission_error :
  fst (transform_template readonly_env (mkPath "template.yaml")
                          (mkPath "transformed-template.json") sample_world)
  = Raise PermissionError
  /\ fs (snd (transform_template readonly_env (mkPath "template.yaml")
                                 (mkPath "transformed-template.json") sample_world))
     = fs sample_world.
Proof.
  rewrite transform_template_eq. cbv zeta. split; reflexivity.
Qed.

(** ** The logged message, for any number of causes *)

Lemma fold_left_spaced causes : forall acc,
  fold_left (fun message error => message +:+ " " +:+ error) causes acc
  = acc +:+ spaced causes.
Proof.
  induction causes as [|c causes IH]; intros acc; cbn [fold_left spaced foldr].
  - symmetry. apply append_nil_r.
  - rewrite IH. rewrite !append_assoc. reflexivity.
Qed.

(** X5: the logged message is the top-level message followed by every
    cause message, in order, each preceded by one space; with no cause
    it is the top-level message alone, and each further cause extends
    the message at its end. *)
Theorem error_message_is_message_then_causes message causes :
  error_message message causes = message +:+ spaced causes
  /\ error_message message [] = message
  /\ (forall c, error_message message (causes ++ [c])
                = error_message message causes +:+ " " +:+ c)
  /\ String.length (error_message message causes)
     = String.length message
       + list_sum (map (fun c => S (String.length c)) causes).
Proof.
  assert (Hlen : forall a b, String.length (a +:+ b) = String.length a + String.length b).
  { intros a b. induction a as [|ch a IH]; [reflexivity|].
    rewrite append_cons. cbn [String.length]. rewrite IH. reflexivity. }
  unfold error_message. split; [apply fold_left_spaced|]. split; [reflexivity|]. split.
  - intros c. rewrite fold_left_app. reflexivity.
  - rewrite fold_left_spaced, Hlen. f_equal.
    induction causes as [|c causes IH]; [reflexivity|].
    cbn [spaced foldr map list_sum]. fold (spaced causes).
    rewrite append_cons, append_nil_l. cbn [String.length]. rewrite Hlen, IH.
    reflexivity.
Qed.

(** ** Whole runs: what is launched, read and written *)

Lemma transform_template_events E i o w :
  exists written,
    trace (snd (transform_template E i o w)) = trace w ++ step_events i o written.
Proof.
  destruct (transform_template_cases E i o w)
    as [(text & d & d' & t & _ & _ & _ & _ & ->)
       |[(message & causes & ->)
        |[(e & ->)
         |(text & d & d' & t & why & kept & _ & _ & _ & _ & ->)]]].
  - eexists (Wrote _). reflexivity.
  - exists NotWritten. reflexivity.
  - exists NotWritten. reflexivity.
  - eexists (Truncated _). reflexivity.
Qed.

(** The four shapes the trace of the main block can take. *)
Lemma dispatch_shape E opts w :
  exists tr,
    trace (snd (dispatch E opts w)) = trace w ++ tr
    /\ ((command opts <> Some "package" /\ command opts <> Some "deploy"
         /\ exists written,
              tr = step_events (input_path opts) (output_path opts) written)
        \/ ((command opts = Some "package" \/ command opts = Some "deploy")
            /\ tr = package_events E opts)
        \/ ((command opts = Some "package" \/ command opts = Some "deploy")
            /\ exists written,
                 tr = package_events E opts
                      ++ step_events (packaged_path (input_path opts))
                                          (output_path opts) written)
        \/ (command opts = Some "deploy"
            /\ exists written,
                 tr = package_events E opts
                      ++ step_events (packaged_path (input_path opts))
                                          (output_path opts) written
                      ++ deploy_events E opts)).
Proof.
  destruct (decide (command opts = Some "package")) as [Hp|Hp];
    [|destruct (decide (command opts = Some "deploy")) as [Hd|Hd]].
  - rewrite dispatch_package by assumption. unfold mbind, M_bind, bind.
    destruct (package_trace E opts w) as [Htr Hq].
    destruct (package E opts (input_path opts) w) as [[q| |] w1] eqn:Hpk;
      cbn [fst snd] in *.
    + rewrite (Hq q eq_refl).
      destruct (transform_template_events E (packaged_path (input_path opts))
                  (output_path opts) w1) as (written & Ht).
      eexists. split; [rewrite Ht, Htr, <- app_assoc; reflexivity|].
      right; right; left. split; [left; assumption|]. exists written. reflexivity.
    + eexists. split; [exact Htr|]. right; left. split; [left; assumption|reflexivity].
    + eexists. split; [exact Htr|]. right; left. split; [left; assumption|reflexivity].
  - rewrite dispatch_deploy by assumption. unfold mbind, M_bind, bind.
    destruct (package_trace E opts w) as [Htr Hq].
    destruct (package E opts (input_path opts) w) as [[q| |] w1] eqn:Hpk;
      cbn [fst snd] in *.
    + rewrite (Hq q eq_refl).
      destruct (transform_template_events E (packaged_path (input_path opts))
                  (output_path opts) w1) as (written & Ht).
      destruct (transform_template E (packaged_path (input_path opts))
                  (output_path opts) w1) as [[[]| |] w2] eqn:Htt; cbn [fst snd] in *.
      * eexists. split.
        -- rewrite (deploy_trace E opts w2), Ht, Htr, <- !app_assoc. reflexivity.
        -- right; right; right. split; [assumption|]. exists written. reflexivity.
      * eexists. split; [rewrite Ht, Htr, <- app_assoc; reflexivity|].
        right; right; left. split; [right; assumption|]. exists written. reflexivity.
      * eexists. split; [rewrite Ht, Htr, <- app_assoc; reflexivity|].
        right; right; left. split; [right; assumption|]. exists written. reflexivity.
    + eexists. split; [exact Htr|]. right; left. split; [right; assumption|reflexivity].
    + eexists. split; [exact Htr|]. right; left. split; [right; assumption|reflexivity].
  - rewrite dispatch_default by assumption.
    destruct (transform_template_events E (input_path opts) (output_path opts) w)
      as (written & Ht).
    eexists. split; [exact Ht|]. left. split; [assumption|]. split; [assumption|].
    exists written. reflexivity.
Qed.

(** X6: the only processes a run launches are the cloud CLI's [package]
    and [deploy], in this order and at most once each: none with the
    default sub-command, at most the packaging with [package]; every
    call starts with the CLI's name and [cloudformation]. *)
Theorem only_the_cloud_cli_is_launched E opts w :
  exists tr,
    trace (snd (script E opts w)) = trace w ++ tr
    /\ calls tr `prefix_of` planned_calls E opts
    /\ Forall (fun argv =>
                 exists rest, argv = AStr (aws_cmd E) :: AStr "cloudformation" :: rest)
              (calls tr).
Proof.
  rewrite script_eq.
  destruct (dispatch_shape E opts (configured opts w)) as (tr & Htr & Hcases).
  exists tr. split; [exact Htr|].
  assert (Hall : forall l, l `prefix_of` [package_argv E opts; deploy_argv E opts] ->
            Forall (fun argv =>
                      exists rest, argv = AStr (aws_cmd E) :: AStr "cloudformation" :: rest) l).
  { intros l [k Hk]. apply Forall_forall. intros argv Hin.
    assert (Hin' : argv ∈ [package_argv E opts; deploy_argv E opts])
      by (rewrite Hk; apply elem_of_app; left; exact Hin).
    apply elem_of_cons in Hin' as [->|Hin']; [eexists; reflexivity|].
    apply list_elem_of_singleton in Hin' as ->. eexists; reflexivity. }
  assert (Hpre : calls tr `prefix_of` planned_calls E opts).
  { unfold planned_calls.
    destruct Hcases as [(H1 & H2 & written & ->)
                       |[(Hc & ->)
                        |[(Hc & written & ->)
                         |(Hc & written & ->)]]].
    - rewrite !decide_False by assumption. destruct written; exists []; reflexivity.
    - destruct Hc as [Hc|Hc]; rewrite Hc; cbn;
        [exists [] | exists [deploy_argv E opts]]; reflexivity.
    - destruct Hc as [Hc|Hc]; rewrite Hc; destruct written; cbn;
        first [exists []; reflexivity | exists [deploy_argv E opts]; reflexivity].
    - rewrite Hc. destruct written; cbn; exists []; reflexivity. }
  split; [exact Hpre|]. apply Hall.
  destruct Hpre as [k Hk]. unfold planned_calls in Hk.
  destruct (decide (command opts = Some "package"));
    [|destruct (decide (command opts = Some "deploy"))].
  - exists (k ++ [deploy_argv E opts]).
    change [package_argv E opts; deploy_argv E opts]
      with ([package_argv E opts] ++ [deploy_argv E opts]).
    rewrite Hk, <- app_assoc. reflexivity.
  - exists k. exact Hk.
  - destruct (calls tr); [|discriminate]. exists [package_argv E opts; deploy_argv E opts].
    reflexivity.
Qed.

(** X7: a run opens at most one file, the template itself with the
    default sub-command and the packaged template otherwise (the
    original template is then never read by the script), and writes at
    most once, to the output path, and only in a run that opened its
    input. *)
Theorem one_read_and_at_most_one_write E opts w :
  exists tr,
    trace (snd (script E opts w)) = trace w ++ tr
    /\ opens tr `prefix_of` [planned_input opts]
    /\ (writes tr = []
        \/ exists text, writes tr = [(output_path opts, text)]
                        /\ opens tr = [planned_input opts]).
Proof.
  rewrite script_eq.
  destruct (dispatch_shape E opts (configured opts w)) as (tr & Htr & Hcases).
  exists tr. split; [exact Htr|].
  unfold planned_input.
  destruct Hcases as [(H1 & H2 & written & ->)
                     |[(Hc & ->)
                      |[(Hc & written & ->)
                       |(Hc & written & ->)]]].
  - rewrite !decide_False by assumption.
    destruct written; cbn; (split; [exists []; reflexivity|]);
      first [left; reflexivity | right; eexists; split; reflexivity].
  - split; [eexists; reflexivity | left; reflexivity].
  - destruct Hc as [Hc|Hc]; rewrite Hc; destruct written; cbn;
      (split; [exists []; reflexivity|]);
      first [left; reflexivity | right; eexists; split; reflexivity].
  - rewrite Hc. destruct written; cbn; (split; [exists []; reflexivity|]);
      first [left; reflexivity | right; eexists; split; reflexivity].
Qed.

(** ** Logging without [--verbose] *)

Lemma package_quiet E opts w :
  log_level w = WARNING ->
  log_level (snd (package E opts (input_path opts) w)) = WARNING
  /\ log (snd (package E opts (input_path opts) w)) = log w.
Proof.
  intros Hlv. rewrite package_eq. cbv zeta. unfold debug_log. rewrite Hlv. cbn [level_num].
  change (30 <=? 10)%Z with false. cbv iota. rewrite app_nil_r.
  destruct (mapM fspath (package_argv E opts)) as [strs|]; [|split; reflexivity].
  destruct (run_child E strs (fs w)) as [| |rc f']; try (split; reflexivity).
  destruct (rc =? 0)%Z; split; reflexivity.
Qed.

Lemma deploy_quiet E opts w :
  log_level w = WARNING ->
  log (snd (deploy E opts (output_path opts) w)) = log w.
Proof.
  intros Hlv. rewrite deploy_eq. cbv zeta. unfold debug_log. rewrite Hlv. cbn [level_num].
  change (30 <=? 10)%Z with false. cbv iota. rewrite app_nil_r.
  destruct (mapM fspath (deploy_argv E opts)) as [strs|]; [|reflexivity].
  destruct (run_child E strs (fs w)) as [| |rc f']; try reflexivity.
  destruct (rc =? 0)%Z; reflexivity.
Qed.

Lemma transform_template_log E i o w :
  log_level (snd (transform_template E i o w)) = log_level w
  /\ log (snd (transform_template E i o w)) = log w ++ invalid_records E i (fs w).
Proof.
  rewrite transform_template_eq. cbv zeta. unfold invalid_records.
  destruct (fs w !! path_str i) as [text|];
    [|cbn; rewrite app_nil_r; split; reflexivity].
  destruct (yaml_parse E text) as [d|];
    [|cbn; rewrite app_nil_r; split; reflexivity].
  destruct (transform E d) as [d'|message causes|e].
  - destruct (json_dumps 1 d') as [t|e];
      [|cbn; rewrite app_nil_r; split; reflexivity].
    destruct (writable E o); [cbn; rewrite app_nil_r; split; reflexivity|].
    destruct (how_write_fails E o t); cbn; rewrite app_nil_r; split; reflexivity.
  - split; reflexivity.
  - destruct e; cbn; rewrite ?app_nil_r; split; reflexivity.
Qed.

Lemma invalid_records_error E i files :
  Forall (fun r => fst r = ERROR) (invalid_records E i files).
Proof.
  unfold invalid_records.
  destruct (files !! path_str i) as [text|]; [|constructor].
  destruct (yaml_parse E text) as [d|]; [|constructor].
  destruct (transform E d) as [d'|message causes|[]]; repeat constructor.
Qed.

(** After the packaging stage of a run without [--verbose], the rest of
    the run logs the records of the transform step that follows it. *)
Lemma packaging_then_quiet E opts w (rest : Path -> M unit) :
  log_level w = WARNING ->
  (forall w1, log_level w1 = WARNING ->
     log (snd (rest (packaged_path (input_path opts)) w1))
     = log w1 ++ invalid_records E (packaged_path (input_path opts)) (fs w1)) ->
  log (snd ((q ← package E opts (input_path opts); rest q) w))
  = log w ++ records_after_packaging E opts (fs w).
Proof.
  intros Hlv Hrest. unfold mbind, M_bind, bind, records_after_packaging.
  rewrite package_eq. cbv zeta. unfold debug_log. rewrite Hlv. cbn [level_num].
  change (30 <=? 10)%Z with false. cbv iota. rewrite app_nil_r.
  destruct (mapM fspath (package_argv E opts)) as [strs|];
    [|cbn; rewrite app_nil_r; reflexivity].
  destruct (run_child E strs (fs w)) as [| |rc f'];
    try (cbn; rewrite app_nil_r; reflexivity).
  destruct (rc =? 0)%Z; [|cbn; rewrite app_nil_r; reflexivity].
  cbn [fst snd]. rewrite Hrest by reflexivity. reflexivity.
Qed.

(** X8: without [--verbose] the records a run logs are exactly those of
    the validation error its transform step runs into: the two [ERROR]
    records of the error the transformation reports for the document
    parsed from the file the step reads (the template itself with the
    default sub-command, the packaged template as the packaging child
    left it otherwise, and only when that child returned 0), and nothing
    in every other run, whatever the child processes do.  No record below
    [ERROR] is logged. *)
Theorem quiet_unless_validation_fails E opts w :
  verbose opts = false ->
  log (snd (script E opts w)) = log w ++ quiet_records E opts (fs w)
  /\ Forall (fun r => fst r = ERROR) (quiet_records E opts (fs w)).
Proof.
  intros Hv. split.
  - rewrite script_eq.
    assert (Hlv : log_level (configured opts w) = WARNING)
      by (unfold configured; rewrite Hv; reflexivity).
    change (log w) with (log (configured opts w)).
    change (fs w) with (fs (configured opts w)).
    generalize dependent (configured opts w). clear w. intros w Hlv.
    unfold quiet_records.
    destruct (decide (command opts = Some "package")) as [Hp|Hp];
      [|destruct (decide (command opts = Some "deploy")) as [Hd|Hd]].
    + rewrite dispatch_package by assumption.
      apply (packaging_then_quiet E opts w
               (fun q => transform_template E q (output_path opts)) Hlv).
      intros w1 _. apply transform_template_log.
    + rewrite dispatch_deploy by assumption.
      apply (packaging_then_quiet E opts w
               (fun q => transform_template E q (output_path opts);;
                         deploy E opts (output_path opts)) Hlv).
      intros w1 Hlv1. unfold mbind, M_bind, bind.
      destruct (transform_template_log E (packaged_path (input_path opts))
                  (output_path opts) w1) as [Hlv2 Hl].
      rewrite Hlv1 in Hlv2.
      destruct (transform_template E (packaged_path (input_path opts))
                  (output_path opts) w1) as [[[]| |] w2]; cbn [fst snd] in *;
        [|exact Hl|exact Hl].
      rewrite (deploy_quiet E opts w2 Hlv2). exact Hl.
    + rewrite dispatch_default by assumption. apply transform_template_log.
  - unfold quiet_records, records_after_packaging.
    destruct (decide (command opts = Some "package"));
      [|destruct (decide (command opts = Some "deploy"))];
      try apply invalid_records_error;
      (destruct (mapM fspath (package_argv E opts)) as [strs|]; [|constructor]);
      (destruct (run_child E strs (fs w)) as [| |rc f']; try constructor);
      (destruct (rc =? 0)%Z; [apply invalid_records_error | constructor]).
Qed.

(** ** Options the sub-command needs but did not get *)

(** X9: [package] or [deploy] without [--s3-bucket] puts [None] into the
    argument list, and the process call raises [TypeError] before any
    child exists: the script ends with that exception (exit status 1),
    no later stage runs and the file system is untouched. *)
Theorem missing_bucket_is_a_type_error E opts w :
  command opts = Some "package" \/ command opts = Some "deploy" ->
  s3_bucket opts = None ->
  fst (script E opts w) = Raise TypeError
  /\ exit_code (fst (script E opts w)) = 1%Z
  /\ fs (snd (script E opts w)) = fs w
  /\ trace (snd (script E opts w))
     = trace w ++ [EvStage Packaging; EvCheckCall (package_argv E opts)].
Proof.
  intros Hcmd Hb.
  assert (Hargv : mapM (M := option) fspath (package_argv E opts) = None)
    by (unfold package_argv; rewrite Hb; reflexivity).
  assert (Hpkg : exists w1,
            package E opts (input_path opts) (configured opts w) = (Raise TypeError, w1)
            /\ fs w1 = fs w
            /\ trace w1 = trace w ++ [EvStage Packaging; EvCheckCall (package_argv E opts)]).
  { rewrite package_eq. cbv zeta. rewrite Hargv. eexists. split; [reflexivity|].
    split; reflexivity. }
  destruct Hpkg as (w1 & Hpkg & Hfs & Htr).
  rewrite script_eq.
  destruct Hcmd as [Hc|Hc];
    [rewrite dispatch_package by assumption | rewrite dispatch_deploy by assumption];
    unfold mbind, M_bind, bind; rewrite Hpkg; cbn [fst snd exit_code]; auto.
Qed.

(** ** How the stages of [deploy] compose *)

Lemma deploy_argv_fspath E opts c s :
  capabilities opts = Some c -> stack_name opts = Some s ->
  mapM (M := option) fspath (deploy_argv E opts) = Some (deploy_command_line E opts c s).
Proof. intros Hc Hs. unfold deploy_argv. rewrite Hc, Hs. reflexivity. Qed.

(** After a successful packaging the transform step runs on the file
    system the child left. *)
Lemma package_succeeds E opts w b fs1 :
  s3_bucket opts = Some b ->
  run_child E (package_command_line E opts b) (fs w) = Exited 0 fs1 ->
  package E opts (input_path opts) w
  = (Ret (packaged_path (input_path opts)),
     mkWorld fs1 (log_level w)
             (log w ++ debug_log w [MsgExecuting (package_argv E opts); MsgSuccessful])
             (trace w ++ package_events E opts)).
Proof.
  intros Hb Hchild. rewrite package_eq. cbv zeta.
  rewrite (package_argv_fspath E opts b Hb), Hchild. reflexivity.
Qed.



(** X12: under [deploy], a validation error does not stop the run: the
    deployment child is still launched, on the file system packaging
    left (the script has written nothing, so the output path holds
    whatever it held before), and when that child returns 0 the script
    ends normally, with exit status 0 and the two [ERROR] records as the
    only sign of the failure. *)
Theorem deploy_goes_on_after_a_validation_error
        E opts w b c s fs1 text d message causes n fs2 :
  command opts = Some "deploy" ->
  s3_bucket opts = Some b ->
  capabilities opts = Some c ->
  stack_name opts = Some s ->
  run_child E (package_command_line E opts b) (fs w) = Exited 0 fs1 ->
  fs1 !! path_str (packaged_path (input_path opts)) = Some text ->
  yaml_parse E text = Some d ->
  transform E d = TInvalid message causes ->
  run_child E (deploy_command_line E opts c s) fs1 = Exited n fs2 ->
  fst (script E opts w) = (if (n =? 0)%Z then Ret tt else Exit n)
  /\ (n = 0%Z -> exit_code (fst (script E opts w)) = 0%Z)
  /\ fs (snd (script E opts w)) = fs2
  /\ writes (package_events E opts
             ++ transform_events (packaged_path (input_path opts)) (output_path opts) None
             ++ deploy_events E opts) = []
  /\ trace (snd (script E opts w))
     = trace w ++ package_events E opts
       ++ transform_events (packaged_path (input_path opts)) (output_path opts) None
       ++ deploy_events E opts
  /\ (verbose opts = false ->
      log (snd (script E opts w)) = log w ++ logged_invalid message causes).
Proof.
  intros Hcmd Hb Hc Hs Hpkg Hfile Hparse Htr Hdep.
  rewrite script_eq, dispatch_deploy by assumption. unfold mbind, M_bind, bind.
  rewrite (package_succeeds E opts (configured opts w) b fs1 Hb Hpkg).
  rewrite (transform_template_invalid E _ _ _ text d message causes)
    by assumption.
  rewrite deploy_eq. cbv zeta. cbn [after_invalid fs log_level log trace].
  rewrite (deploy_argv_fspath E opts c s Hc Hs), Hdep.
  unfold package_events, transform_events, deploy_events, debug_log, configured.
  cbn [fs log_level log trace].
  destruct (n =? 0)%Z eqn:Hn; cbn [fst snd fs trace log exit_code];
    rewrite <- !app_assoc; repeat split;
    try (intros ->; discriminate);
    intros Hv; rewrite Hv; cbn; rewrite ?app_nil_r; reflexivity.
Qed.

(** ** More on the command line *)

Lemma plain_word_positional c :
  plain_word c = true ->
  parse_optional c = PPositional /\ String.eqb c "--" = false.
Proof.
  destruct c as [|ch c]; [split; reflexivity|]. cbn [plain_word]. intros H.
  apply negb_true_iff in H. split.
  - unfold parse_optional. rewrite H. reflexivity.
  - cbn [String.eqb]. rewrite H. reflexivity.
Qed.

(** X13: a command line that spells a namespace out, every stored option
    as [--opt=value], [--verbose] when set and the command last, parses
    back to that namespace, the two paths going through [Path]; the
    values are taken verbatim, whatever other characters they hold.  The
    command must not start with a dash, and no value may be exactly
    ["--"]: [argparse] drops that string from the values of an option
    and stores an empty list in its place, which a namespace of
    [Options] cannot hold. *)
Theorem parse_args_reads_back_rendered_options ns :
  (forall c, command ns = Some c -> plain_word c = true) ->
  path_str (template_file ns) <> "--" ->
  path_str (output_template ns) <> "--" ->
  s3_bucket ns <> Some "--" ->
  capabilities ns <> Some "--" ->
  stack_name ns <> Some "--" ->
  parse_args (render_options ns)
  = Parsed (mkOptions (command ns)
                      (Path_ (path_str (template_file ns)))
                      (Path_ (path_str (output_template ns)))
                      (s3_bucket ns) (capabilities ns) (stack_name ns) (verbose ns)).
Proof.
  destruct ns as [cmd [tf] [ot] b caps sn v].
  cbn [command template_file output_template s3_bucket capabilities stack_name
       verbose path_str].
  intros Hc _ _ _ _ _. unfold parse_args, render_options, render_store.
  cbn [command template_file output_template s3_bucket capabilities stack_name
       verbose path_str].
  destruct cmd as [c|].
  - destruct (plain_word_positional c (Hc c eq_refl)) as [Hp Hd].
    destruct b, caps, sn, v; cbn [app classify];
      repeat match goal with
             | |- context [String.eqb ?s "--"] =>
                 first [rewrite Hd | change (String.eqb s "--") with false]
             end;
      rewrite Hp; reflexivity.
  - destruct b, caps, sn, v; reflexivity.
Qed.

Lemma consume_parsed_accepted n :
  forall toks after ns pending extras ns',
    length toks <= n ->
    consume toks after ns pending extras = Parsed ns' ->
    extras = false /\ Forall accepted_tok toks.
Proof.
  assert (Hfin : forall ns e ns', finish ns e = Parsed ns' -> e = false).
  { intros ns [] ns'; cbn; [discriminate | reflexivity]. }
  induction n as [|n IH]; intros toks after ns pending extras ns' Hlen Hres.
  - destruct toks; [|cbn in Hlen; lia]. cbn in Hres. split; [|constructor].
    destruct after as [[|c more]|]; destruct pending; try discriminate;
      apply Hfin in Hres; try exact Hres.
    apply orb_false_iff in Hres as [Hres _]. exact Hres.
  - destruct toks as [|t rest].
    { apply (IH [] after ns pending extras ns'); [cbn; lia | exact Hres]. }
    cbn [length] in Hlen.
    destruct t as [s|[a'|] o e]; cbn [consume] in Hres.
    + destruct pending.
      * destruct rest as [|t' rest'].
        -- destruct after as [strs|].
           ++ apply Hfin in Hres. apply orb_false_iff in Hres as [Hres _].
              split; [exact Hres | repeat constructor].
           ++ apply IH in Hres as [He Ht]; [|cbn; lia].
              split; [exact He | repeat constructor].
        -- apply IH in Hres as [He Ht]; [|cbn in *; lia].
           split; [exact He | constructor; [exact I | exact Ht]].
      * apply IH in Hres as [He _]; [discriminate | lia].
    + destruct e as [v|].
      * destruct (takes_argument a') eqn:Hta.
        -- apply IH in Hres as [He Ht]; [|lia].
           split; [exact He | constructor; [destruct a'; try exact I; discriminate | exact Ht]].
        -- destruct (String.eqb o "-h"); [|discriminate].
           exfalso. exact (help_chain_not_parsed v ns' Hres).
      * destruct (takes_argument a') eqn:Hta.
        -- destruct rest as [|[v|] rest']; try discriminate.
           apply IH in Hres as [He Ht]; [|cbn in *; lia].
           split; [exact He|].
           constructor; [destruct a'; try exact I; discriminate|].
           constructor; [exact I | exact Ht].
        -- destruct a'; try discriminate.
           apply IH in Hres as [He Ht]; [|lia].
           split; [exact He | constructor; [exact I | exact Ht]].
    + apply IH in Hres as [He _]; [discriminate | lia].
Qed.

Lemma classify_acceptable argv : forall toks after,
  classify argv = Some (toks, after) ->
  Forall accepted_tok toks -> Forall acceptable (before_dashes argv).
Proof.
  induction argv as [|s argv IH]; intros toks after Hc Hacc; [constructor|].
  cbn [classify before_dashes] in *.
  destruct (String.eqb s "--"); [constructor|].
  destruct (classify argv) as [[toks' after']|];
    [|destruct (parse_optional s); discriminate].
  unfold acceptable at 1.
  destruct (parse_optional s) as [|a o e| |] eqn:Hp; try discriminate;
    injection Hc as <- <-; inversion Hacc as [|? ? Ht Hrest]; subst;
    (constructor; [|eapply IH; [reflexivity | exact Hrest]]).
  - unfold acceptable. rewrite Hp. exact I.
  - unfold acceptable. rewrite Hp. destruct a; try exact I. exact Ht.
  - contradiction.
Qed.

(** X14: [parse_args] yields a namespace only when no argument before
    the first ["--"] is an unknown option, an ambiguous prefix or the
    help option; with such an argument the program ends before its main
    block, without entering any stage and leaving the world as it
    was. *)
Theorem unacceptable_arguments_stop_before_any_stage argv :
  (forall ns, parse_args argv = Parsed ns -> Forall acceptable (before_dashes argv))
  /\ (forall E w,
        ~ Forall acceptable (before_dashes argv) ->
        snd (main E argv w) = w /\ fst (main E argv w) <> Ret tt).
Proof.
  assert (Hacc : forall ns, parse_args argv = Parsed ns ->
                            Forall acceptable (before_dashes argv)).
  { unfold parse_args. intros ns Hres.
    destruct (classify argv) as [[toks after]|] eqn:Hc; [|discriminate].
    apply (consume_parsed_accepted (length toks)) in Hres as [_ Ht]; [|lia].
    eapply classify_acceptable; eassumption. }
  split; [exact Hacc|].
  intros E w Hbad. unfold main.
  destruct (parse_args argv) as [ns|code] eqn:Hres.
  - exfalso. apply Hbad. eapply Hacc. reflexivity.
  - split; [reflexivity | discriminate].
Qed.

(** A property kept by every action of the parser holds of the namespace
    it returns. *)
Lemma consume_invariant (P : Options -> Prop) :
  (forall a v ns, P ns -> P (store a v ns)) ->
  (forall ns, P ns -> P (store_true ns)) ->
  (forall c ns, P ns -> P (set_command c ns)) ->
  forall n toks after ns pending extras ns',
    length toks <= n -> P ns ->
    consume toks after ns pending extras = Parsed ns' -> P ns'.
Proof.
  intros Hstore Htrue Hcmd.
  assert (Hfin : forall ns e ns', finish ns e = Parsed ns' -> ns' = ns).
  { intros ns [] ns'; cbn; [discriminate | congruence]. }
  induction n as [|n IH]; intros toks after ns pending extras ns' Hlen HP Hres.
  - destruct toks; [|cbn in Hlen; lia]. cbn in Hres.
    destruct after as [[|c more]|]; destruct pending; try discriminate;
      apply Hfin in Hres; subst; auto.
  - destruct toks as [|t rest].
    { apply (IH [] after ns pending extras ns'); [cbn; lia | exact HP | exact Hres]. }
    cbn [length] in Hlen.
    destruct t as [s|[a'|] o e]; cbn [consume] in Hres.
    + destruct pending.
      * destruct rest as [|t' rest'].
        -- destruct after as [strs|].
           ++ apply Hfin in Hres. subst. auto.
           ++ eapply IH; [| |exact Hres]; [cbn; lia | auto].
        -- eapply IH; [| |exact Hres]; [cbn in *; lia | auto].
      * eapply IH; [| |exact Hres]; [lia | auto].
    + destruct e as [v|].
      * destruct (takes_argument a').
        -- eapply IH; [| |exact Hres]; [lia | auto].
        -- destruct (String.eqb o "-h"); [|discriminate].
           exfalso. exact (help_chain_not_parsed v ns' Hres).
      * destruct (takes_argument a') eqn:Hta.
        -- destruct rest as [|[v|] rest']; try discriminate.
           eapply IH; [| |exact Hres]; [cbn in *; lia | auto].
        -- destruct a'; try discriminate.
           eapply IH; [| |exact Hres]; [lia | auto].
    + eapply IH; [| |exact Hres]; [lia | auto].
Qed.

(** X15: when no argument gives an option the explicit value ["--"]
    (which [argparse] would store as an empty list, and [Path] of a list
    raises [TypeError]), both paths of the namespace [parse_args] returns
    are printed forms of paths, so the [Path(...)] the main block wraps
    around them changes nothing: the script works on exactly the parsed
    paths. *)
Theorem main_block_paths_are_the_parsed_paths argv ns :
  no_dash_value argv ->
  parse_args argv = Parsed ns ->
  paths_normal ns
  /\ input_path ns = template_file ns
  /\ output_path ns = output_template ns.
Proof.
  unfold parse_args. intros _ Hres.
  destruct (classify argv) as [[toks after]|]; [|discriminate].
  assert (HP : paths_normal ns).
  { apply (consume_invariant paths_normal) with (n := length toks) in Hres;
      [exact Hres | | | | lia | ].
    - intros a v ns0 [[s1 H1] [s2 H2]].
      destruct a; cbn; split; eauto.
    - intros ns0 HP. exact HP.
    - intros c ns0 HP. exact HP.
    - split; eexists; reflexivity. }
  split; [exact HP|].
  destruct HP as [[s1 H1] [s2 H2]]. unfold input_path, output_path.
  rewrite H1, H2. unfold Path_. cbn [path_str].
  rewrite !normalize_idempotent. split; reflexivity.
Qed.

(** ** The intermediate path *)




(** ** The further properties on concrete runs *)

Lemma missing_template_raises_witness :
  fs empty_world !! "template.yaml" = None
  /\ fst (script sample_env sample_options empty_world) = Raise FileNotFoundError
  /\ exit_code (fst (script sample_env sample_options empty_world)) = 1%Z.
Proof.
  destruct (missing_template_raises sample_env sample_options empty_world)
    as [Hrun Hcode]; try reflexivity; try discriminate.
  split; [reflexivity|]. split; [rewrite Hrun; reflexivity | exact Hcode].
Defined.

Lemma other_transform_errors_propagate_witness :
  transform broken_env DNull = TRaise (OtherError "ClientError")
  /\ fst (transform_template broken_env (mkPath "template.yaml")
                             (mkPath "transformed-template.json") sample_world)
     = Raise (OtherError "ClientError").
Proof.
  split; [reflexivity|].
  rewrite (other_transform_errors_propagate
             broken_env (mkPath "template.yaml") (mkPath "transformed-template.json")
             sample_world "Resources: {}" DNull (OtherError "ClientError")
             eq_refl eq_refl eq_refl); [reflexivity|].
  intros message causes. discriminate.
Defined.

Lemma unwritable_output_raises_witness :
  writable full_disk_env (mkPath "transformed-template.json") = false
  /\ json_dumps 1 sample_doc = Text sample_text
  /\ how_write_fails full_disk_env (mkPath "transformed-template.json") sample_text
     = WriteFailed OtherOSError 10
  /\ fst (transform_template full_disk_env (mkPath "template.yaml")
                             (mkPath "transformed-template.json") sample_world)
     = Raise OSError
  /\ fs (snd (transform_template full_disk_env (mkPath "template.yaml")
                                 (mkPath "transformed-template.json") sample_world))
     !! "transformed-template.json"
     = Some (string_take 10 sample_text).
Proof.
  destruct (unwritable_output_raises
              full_disk_env (mkPath "template.yaml") (mkPath "transformed-template.json")
              sample_world "Resources: {}" sample_doc sample_doc sample_text
              eq_refl eq_refl eq_refl eq_refl eq_refl) as (_ & Hwrite & _).
  destruct (Hwrite OtherOSError 10 eq_refl) as [Hrun Hfile].
  split; [reflexivity|]. split; [reflexivity|]. split; [reflexivity|].
  split; [rewrite Hrun; reflexivity | exact Hfile].
Defined.

Lemma quiet_unless_validation_fails_witness :
  verbose sample_options = false
  /\ log (snd (script invalid_env sample_options sample_world))
     = [(ERROR, MsgText "Invalid document. first second");
        (ERROR, MsgGenerator ["first"; "second"])].
Proof.
  split; [reflexivity|].
  destruct (quiet_unless_validation_fails invalid_env sample_options sample_world eq_refl)
    as [Hlog _].
  rewrite Hlog. reflexivity.
Defined.

Lemma missing_bucket_is_a_type_error_witness :
  s3_bucket (set_command (Some "package") sample_options) = None
  /\ fst (script sample_env (set_command (Some "package") sample_options) sample_world)
     = Raise TypeError
  /\ fs (snd (script sample_env (set_command (Some "package") sample_options)
                     sample_world))
     = fs sample_world.
Proof.
  destruct (missing_bucket_is_a_type_error
              sample_env (set_command (Some "package") sample_options) sample_world
              (or_introl eq_refl) eq_refl)
    as (Hr & _ & Hfs & _).
  split; [reflexivity|]. split; [exact Hr | exact Hfs].
Defined.



Lemma deploy_goes_on_after_a_validation_error_witness :
  transform invalid_packaged_env DNull
  = TInvalid "Invalid document." ["first"; "second"]
  /\ fst (script invalid_packaged_env (opts_with (Some "deploy")) sample_world) = Ret tt
  /\ exit_code (fst (script invalid_packaged_env (opts_with (Some "deploy")) sample_world))
     = 0%Z
  /\ fs (snd (script invalid_packaged_env (opts_with (Some "deploy")) sample_world))
     = packaged_files.
Proof.
  destruct (deploy_goes_on_after_a_validation_error
              invalid_packaged_env (opts_with (Some "deploy")) sample_world
              "my-bucket" "CAPABILITY_IAM" "stack" packaged_files "Resources: {}"
              DNull "Invalid document." ["first"; "second"] 0 packaged_files)
    as (Hr & Hcode & Hfs & _); try reflexivity.
  split; [reflexivity|]. split; [exact Hr|]. split; [apply Hcode; reflexivity | exact Hfs].
Defined.

Lemma parse_args_reads_back_rendered_options_witness :
  plain_word "deploy" = true
  /\ path_str (template_file (opts_with (Some "deploy"))) <> "--"
  /\ path_str (output_template (opts_with (Some "deploy"))) <> "--"
  /\ s3_bucket (opts_with (Some "deploy")) <> Some "--"
  /\ capabilities (opts_with (Some "deploy")) <> Some "--"
  /\ stack_name (opts_with (Some "deploy")) <> Some "--"
  /\ parse_args (render_options (opts_with (Some "deploy")))
     = Parsed (opts_with (Some "deploy")).
Proof.
  split; [reflexivity|]. do 5 (split; [discriminate|]).
  rewrite (parse_args_reads_back_rendered_options (opts_with (Some "deploy")));
    try discriminate.
  - reflexivity.
  - intros c [= <-]. reflexivity.
Defined.

Lemma main_block_paths_are_the_parsed_paths_witness :
  no_dash_value ["--template-file=a//b/./c.yaml"; "package"]
  /\ parse_args ["--template-file=a//b/./c.yaml"; "package"]
     = Parsed (mkOptions (Some "package") (mkPath "a/b/c.yaml")
                         (mkPath "transformed-template.json") None None None false)
  /\ input_path (mkOptions (Some "package") (mkPath "a/b/c.yaml")
                           (mkPath "transformed-template.json") None None None false)
     = mkPath "a/b/c.yaml".
Proof.
  assert (Hargv : no_dash_value ["--template-file=a//b/./c.yaml"; "package"]).
  { repeat constructor. vm_compute. discriminate. }
  split; [exact Hargv|]. split; [reflexivity|].
  apply (main_block_paths_are_the_parsed_paths
           ["--template-file=a//b/./c.yaml"; "package"] _ Hargv eq_refl).
Defined.

(** ** Packaging that does not deliver *)

(** X18: under [package] or [deploy], when the cloud CLI executable is
    not found, the script ends with [FileNotFoundError] (exit status 1)
    at the packaging call: the transform stage is never entered and the
    file system is untouched. *)
Theorem missing_cli_stops_the_script E opts w b :
  command opts = Some "package" \/ command opts = Some "deploy" ->
  s3_bucket opts = Some b ->
  run_child E (package_command_line E opts b) (fs w) = NotFound ->
  fst (script E opts w) = Raise FileNotFoundError
  /\ exit_code (fst (script E opts w)) = 1%Z
  /\ fs (snd (script E opts w)) = fs w
  /\ trace (snd (script E opts w)) = trace w ++ package_events E opts.
Proof.
  intros Hcmd Hb Hchild.
  assert (Hpkg : exists w1,
            package E opts (input_path opts) (configured opts w)
            = (Raise FileNotFoundError, w1)
            /\ fs w1 = fs w /\ trace w1 = trace w ++ package_events E opts).
  { rewrite package_eq. cbv zeta. rewrite (package_argv_fspath E opts b Hb).
    cbn [configured fs]. rewrite Hchild. eexists. split; [reflexivity|].
    split; reflexivity. }
  destruct Hpkg as (w1 & Hpkg & Hfs & Htr).
  rewrite script_eq.
  destruct Hcmd as [Hc|Hc];
    [rewrite dispatch_package by assumption | rewrite dispatch_deploy by assumption];
    unfold mbind, M_bind, bind; rewrite Hpkg; cbn [fst snd exit_code]; auto.
Qed.

(** X19: the transform step of [package] and [deploy] reads the
    intermediate file from the file system the packaging child left: when
    the child returned 0 without creating it, the script ends with
    [FileNotFoundError] after packaging, having written nothing
    itself. *)
Theorem missing_packaged_template_raises E opts w b fs1 :
  command opts = Some "package" \/ command opts = Some "deploy" ->
  s3_bucket opts = Some b ->
  run_child E (package_command_line E opts b) (fs w) = Exited 0 fs1 ->
  fs1 !! path_str (packaged_path (input_path opts)) = None ->
  fst (script E opts w) = Raise FileNotFoundError
  /\ fs (snd (script E opts w)) = fs1
  /\ trace (snd (script E opts w))
     = trace w ++ package_events E opts
       ++ transform_events (packaged_path (input_path opts)) (output_path opts) None.
Proof.
  intros Hcmd Hb Hchild Hfile.
  rewrite script_eq.
  destruct Hcmd as [Hc|Hc];
    [rewrite dispatch_package by assumption | rewrite dispatch_deploy by assumption];
    unfold mbind, M_bind, bind;
    rewrite (package_succeeds E opts (configured opts w) b fs1 Hb Hchild);
    rewrite transform_template_eq; cbv zeta; cbn [fs log_level log trace];
    rewrite Hfile; unfold package_events, transform_events;
    cbn [fst snd fs trace]; rewrite <- !app_assoc; repeat split.
Qed.

Lemma missing_cli_stops_the_script_witness :
  run_child no_cli_env
            (package_command_line no_cli_env (opts_with (Some "package")) "my-bucket")
            (fs sample_world)
  = NotFound
  /\ fst (script no_cli_env (opts_with (Some "package")) sample_world)
     = Raise FileNotFoundError
  /\ fs (snd (script no_cli_env (opts_with (Some "package")) sample_world))
     = fs sample_world.
Proof.
  destruct (missing_cli_stops_the_script
              no_cli_env (opts_with (Some "package")) sample_world "my-bucket"
              (or_introl eq_refl) eq_refl eq_refl)
    as (Hr & _ & Hfs & _).
  split; [reflexivity|]. split; [exact Hr | exact Hfs].
Defined.

Lemma missing_packaged_template_raises_witness :
  fs sample_world !! "template.yaml._sam_packaged_.yaml" = None
  /\ fst (script idle_cli_env (opts_with (Some "package")) sample_world)
     = Raise FileNotFoundError
  /\ fs (snd (script idle_cli_env (opts_with (Some "package")) sample_world))
     = fs sample_world.
Proof.
  destruct (missing_packaged_template_raises
              idle_cli_env (opts_with (Some "package")) sample_world "my-bucket"
              (fs sample_world) (or_introl eq_refl) eq_refl eq_refl eq_refl)
    as (Hr & Hfs & _).
  split; [reflexivity|]. split; [exact Hr | exact Hfs].
Defined.
